(** * misconfig-configdiffvisualizer: a shallow embedding of [main.py]

    The program reads two configuration files, brings each into a
    canonical text (YAML and JSON are parsed and dumped again, plain text
    is taken as it is), optionally strips the whitespace of every line and
    hands the two texts to the diff engine of the [diff_match_patch]
    package, whose HTML rendering is printed or written to a file.

    Python strings are sequences of Unicode code points, so a [str] is a
    list of code points here; the built-in methods the program calls
    ([splitlines], [strip], [join], [lower], [rfind]) are written after
    CPython's implementation of them. *)

From Stdlib Require Import String Ascii List NArith ZArith Bool Lia.
Import ListNotations.

(** ** Python strings *)

Module PyStr.

Local Open Scope N_scope.

Definition char := N.
Definition str := list char.

(** A literal of the source, code point by code point (ASCII only). *)
Definition py (s : string) : str :=
  List.map N_of_ascii (list_ascii_of_string s).

Definition LF : char := 10.
Definition CR : char := 13.

Definition str_eqb (a b : str) : bool :=
  if list_eq_dec N.eq_dec a b then true else false.

Definition in_range (lo hi c : char) : bool := (lo <=? c) && (c <=? hi).

(** [Py_UNICODE_ISLINEBREAK]: the code points at which [str.splitlines]
    breaks a line. *)
Definition is_linebreak (c : char) : bool :=
  in_range 10 13 c          (* \n \v \f \r *)
  || in_range 28 30 c       (* FS GS RS *)
  || (c =? 133)             (* NEL, U+0085 *)
  || in_range 8232 8233 c.  (* U+2028 LINE SEPARATOR, U+2029 PARAGRAPH SEPARATOR *)

(** [Py_UNICODE_ISSPACE]: the code points removed by [str.strip()]. *)
Definition is_space (c : char) : bool :=
  in_range 9 13 c           (* \t \n \v \f \r *)
  || in_range 28 31 c       (* FS GS RS US *)
  || (c =? 32)
  || (c =? 133)             (* U+0085 *)
  || (c =? 160)             (* U+00A0 *)
  || (c =? 5760)            (* U+1680 *)
  || in_range 8192 8202 c   (* U+2000 .. U+200A *)
  || in_range 8232 8233 c   (* U+2028, U+2029 *)
  || (c =? 8239)            (* U+202F *)
  || (c =? 8287)            (* U+205F *)
  || (c =? 12288).          (* U+3000 *)

(** [str.splitlines()] with [keepends=False].  CPython scans with two
    indices [j <= i]; [line] is the slice [s[j:i]] read so far and the
    second argument is [s[i:]].  A line break closes the line, [\r\n]
    counting as one break; the scan stops when [i] reaches the end, so the
    text after the last break is a line only when it is not empty. *)
Fixpoint splitlines_loop (line : str) (s : str) : list str :=
  match s with
  | [] => match line with [] => [] | _ :: _ => [line] end
  | c :: s' =>
      if is_linebreak c then
        match s' with
        | d :: s'' =>
            if (c =? CR) && (d =? LF)
            then line :: splitlines_loop [] s''
            else line :: splitlines_loop [] s'
        | [] => line :: splitlines_loop [] s'
        end
      else splitlines_loop (line ++ [c]) s'
  end.

Definition splitlines (s : str) : list str := splitlines_loop [] s.

(** [str.strip()] without argument: an index moves right over the leading
    whitespace, a second one moves left over the trailing whitespace. *)
Fixpoint lstrip (s : str) : str :=
  match s with
  | [] => []
  | c :: s' => if is_space c then lstrip s' else s
  end.

Definition rstrip (s : str) : str := rev (lstrip (rev s)).

Definition strip (s : str) : str := rstrip (lstrip s).

(** [sep.join(items)] *)
Fixpoint join (sep : str) (items : list str) : str :=
  match items with
  | [] => []
  | [x] => x
  | x :: rest => x ++ sep ++ join sep rest
  end.

End PyStr.

Import PyStr.

(** ** Whitespace normalisation

    [generate_diff_html], lines 139-141, applies to each text
    ['\n'.join(line.strip() for line in text.splitlines())]. *)
Definition normalize_whitespace (text : str) : str :=
  join [LF] (List.map strip (splitlines text)).

(** The last character of a text, [None] for the empty text. *)
Definition last_char (s : str) : option char :=
  match rev s with
  | [] => None
  | c :: _ => Some c
  end.

(** A line as [splitlines] returns it holds no line break. *)
Definition no_linebreak (l : str) : Prop := Forall (fun c => is_linebreak c = false) l.

(** What [lstrip] returns starts with a character that is not white. *)
Definition starts_black (s : str) : Prop :=
  match s with
  | [] => True
  | c :: _ => is_space c = false
  end.

(** The last character of [s], if it breaks a line, is a carriage return. *)
Definition no_final_break (s : str) : Prop :=
  forall c, last_char s = Some c -> is_linebreak c = true -> c = CR.

(** ** Type detection *)

Module PyPath.

Local Open Scope Z_scope.

Definition DOT : char := 46%N.
Definition SLASH : char := 47%N.

(** [s.rfind(c)] for a one-character [c]: the highest index holding [c],
    or [-1]. *)
Fixpoint rfind_from (i : Z) (found : Z) (c : char) (s : str) : Z :=
  match s with
  | [] => found
  | x :: s' => rfind_from (i + 1) (if N.eqb x c then i else found) c s'
  end.

Definition rfind (s : str) (c : char) : Z := rfind_from 0 (-1) c s.

(** Slices with non-negative bounds: [s[:i]], [s[i:]] and [s[i:j]]. *)
Definition slice_to (s : str) (i : Z) : str := firstn (Z.to_nat i) s.
Definition slice_from (s : str) (i : Z) : str := skipn (Z.to_nat i) s.
Definition slice (s : str) (i j : Z) : str := slice_from (slice_to s j) i.

(** The [while] loop of [genericpath._splitext]: the extension counts
    only when the file name has a character other than a dot before the
    last dot.  [todo] bounds the iterations and is given as
    [dotIndex - filenameIndex]. *)
Fixpoint skip_leading_dots (todo : nat) (p : str) (filenameIndex dotIndex : Z)
  : str * str :=
  match todo with
  | O => (p, slice_to p 0)
  | S todo' =>
      if filenameIndex <? dotIndex then
        if negb (str_eqb (slice p filenameIndex (filenameIndex + 1)) [DOT])
        then (slice_to p dotIndex, slice_from p dotIndex)
        else skip_leading_dots todo' p (filenameIndex + 1) dotIndex
      else (p, slice_to p 0)
  end.

(** [os.path.splitext] on a POSIX host: [genericpath._splitext(p, '/',
    None, '.')]. *)
Definition splitext (p : str) : str * str :=
  let sepIndex := rfind p SLASH in
  let dotIndex := rfind p DOT in
  if dotIndex >? sepIndex then
    let filenameIndex := sepIndex + 1 in
    skip_leading_dots (Z.to_nat (dotIndex - filenameIndex)) p filenameIndex dotIndex
  else (p, slice_to p 0).

End PyPath.

Import PyPath.

(** A path [dir ++ dots ++ x :: rest]: a directory part, empty or closed
    by a slash, then a file name with a character [x] that is not a dot
    after its leading dots. *)
Definition has_stem (root : str) : Prop :=
  exists dir dots x rest,
    root = dir ++ dots ++ x :: rest
    /\ (dir = [] \/ exists d, dir = d ++ [SLASH])
    /\ Forall (eq DOT) dots
    /\ x <> DOT
    /\ ~ In SLASH (x :: rest).

Section Lower.

(** [str.lower()] maps the string code point by code point.  An ASCII
    capital becomes its small letter and the other ASCII characters stay.
    A code point from 128 on is mapped by the Unicode tables of the
    interpreter, for the capital sigma depending on its neighbours; the
    tables are not part of the program and are taken as
    [nonascii before c after]. *)
Variable nonascii : str -> char -> str -> str.

Definition ascii_lower (c : char) : char :=
  if in_range 65%N 90%N c then (c + 32)%N else c.

Fixpoint lower_from (before : str) (s : str) : str :=
  match s with
  | [] => []
  | c :: s' =>
      (if (c <? 128)%N then [ascii_lower c] else nonascii before c s')
        ++ lower_from (before ++ [c]) s'
  end.

Definition lower (s : str) : str := lower_from [] s.

(** [detect_file_type], lines 108-125. *)
Definition detect_file_type (file_path : str) : str :=
  let '(_, ext) := splitext file_path in
  let ext := lower ext in
  if existsb (str_eqb ext) [py ".yaml"; py ".yml"] then py "yaml"
  else if str_eqb ext (py ".json") then py "json"
  else py "text".

End Lower.

(** A code point of the ASCII range *)
Definition is_ascii (c : char) : Prop := (c < 128)%N.

(** [e] read with its ASCII capitals as small letters *)
Definition ascii_fold (e : str) : str := List.map ascii_lower e.

(** ** Effects of a run

    What a run does to the outside is kept as a list of events in the
    order they happen: records handed to [logging], the text given to
    [print], and the text written to the output file.  [sys.exit] ends
    the run with a status; it raises [SystemExit], which the handlers for
    [Exception] of the program do not catch. *)

Inductive level : Type := INFO | WARNING | ERROR.

Inductive event : Type :=
| Log (lv : level) (msg : str)
| Stdout (text : str)
| FileWrite (path : str) (text : str).

Module Run.

Definition M (A : Type) : Type := (list event * (A + Z))%type.

Definition ret {A} (a : A) : M A := ([], inl a).

Definition bind {A B} (m : M A) (f : A -> M B) : M B :=
  match m with
  | (t, inl a) => let '(t', r) := f a in (t ++ t', r)
  | (t, inr status) => (t, inr status)
  end.

Definition emit (e : event) : M unit := ([e], inl tt).

Definition sys_exit {A} (status : Z) : M A := ([], inr status).

Definition trace {A} (m : M A) : list event := fst m.
Definition outcome {A} (m : M A) : A + Z := snd m.

End Run.

Import Run.

Notation "x <- m ;; k" := (bind m (fun x => k))
  (at level 61, m at next level, right associativity).
Notation "m ;; k" := (bind m (fun _ => k))
  (at level 61, right associativity).

Definition logging (lv : level) (msg : str) : M unit := emit (Log lv msg).

(** ** The host and the packages *)

(** [subprocess.run(cmd, check=True, capture_output=True, text=True)] *)
Inductive run_result : Type :=
| Completed                          (* exit status 0 *)
| ToolNotFound                       (* FileNotFoundError: no such command *)
| CalledProcessError (stderr : str)  (* non-zero exit status *)
| RunRaised (e : str).               (* any other exception *)

(** [open(path, 'r')] and reading the text *)
Inductive read_result : Type :=
| Content (text : str)
| NoSuchFile                         (* FileNotFoundError *)
| ReadRaised (e : str).              (* any other exception *)

(** [with open(path, 'w') as f: f.write(text)] *)
Inductive write_result : Type :=
| Written
| WriteRaised (e : str)                (* [open] raises: the file is not touched *)
| WriteBroke (kept : str) (e : str).   (* the file is opened, and so emptied, and
                                          writing raises; the file holds [kept] *)

(** [print(text)] *)
Inductive print_result : Type :=
| Printed
| PrintRaised (shown : str) (e : str). (* raises after [shown] has reached stdout *)

(** [yaml.safe_load] and [json.load] on the text of a file *)
Inductive load_result (A : Type) : Type :=
| Loaded (data : A)
| Malformed (e : str)                (* yaml.YAMLError, json.JSONDecodeError *)
| LoadRaised (e : str).              (* any other exception *)

Arguments Loaded {A} data.
Arguments Malformed {A} e.
Arguments LoadRaised {A} e.

(** The host system as one run sees it.  It is taken not to change while
    the program runs; [path_exists] and [open_read] are still independent
    answers. *)
Record World : Type := {
  path_exists : str -> bool;             (* os.path.exists *)
  subprocess_run : list str -> run_result;
  open_read : str -> read_result;
  open_write : str -> str -> write_result;   (* path, text *)
  stdout_write : str -> print_result
}.

(** [argparse] namespace of [setup_argparse], lines 22-27 *)
Record Args : Type := {
  file1 : str;
  file2 : str;
  output : option str;
  type_ : option str;
  ignore_whitespace : bool;
  no_validation : bool
}.

(** Edit script of [diff_match_patch]: a list of [(op, text)]. *)
Inductive diff_op : Type := DIFF_DELETE | DIFF_INSERT | DIFF_EQUAL.
Definition diff : Type := (diff_op * str)%type.

Definition QUOTE : char := 34%N.

(** The document printed or written by [main], lines 193-206 and 212-225. *)
Definition html_page (diff_html : str) : str :=
  join [LF]
    [ py "<!DOCTYPE html>";
      py "<html>";
      py "<head>";
      py "<meta charset=" ++ [QUOTE] ++ py "utf-8" ++ [QUOTE] ++ py ">";
      py "<title>Configuration Diff</title>";
      py "<style>";
      py "del { background:#ffe6e6; }";
      py "ins { background:#e6ffe6; }";
      py "</style>";
      py "</head>";
      py "<body>";
      diff_html;
      py "</body>";
      py "</html>" ].

(** The packages the program imports are not part of it and are taken as
    they are: the parsers and printers of [yaml] and [json] over their own
    values, the Unicode tables behind [str.lower] and the diff engine of
    [diff_match_patch].  [diff_cleanupSemantic] changes its list in place;
    here it returns the list after the change.  [diff_raises] is the
    exception, if any, with which the engine ends on two texts instead of
    returning. *)
Record Packages : Type := {
  Y : Type;
  J : Type;
  yaml_safe_load : str -> load_result Y;
  yaml_dump : Y -> Z -> str;               (* yaml.dump(data, indent=n) *)
  json_load : str -> load_result J;
  json_dumps : J -> Z -> str;              (* json.dumps(data, indent=n) *)
  lower_nonascii : str -> char -> str -> str;
  diff_main : str -> str -> list diff;
  diff_cleanupSemantic : list diff -> list diff;
  diff_prettyHtml : list diff -> str;
  diff_raises : str -> str -> option str
}.

Section Program.

Variable pk : Packages.
Variable w : World.

(** [validate_file], lines 31-68 *)
Definition validate_file (file_path file_type : str) : M bool :=
  if str_eqb file_type (py "yaml") then
    match subprocess_run w [py "yamllint"; file_path] with
    | Completed => ret true
    | ToolNotFound =>
        logging WARNING (py "yamllint not found. Skipping YAML validation. Please install yamllint to enable validation.") ;;
        ret true
    | CalledProcessError stderr =>
        logging ERROR (py "YAML validation failed for " ++ file_path ++ py ":" ++ [LF] ++ stderr) ;;
        ret false
    | RunRaised e =>
        logging ERROR (py "Error during validation for " ++ file_path ++ py ": " ++ e) ;;
        ret false
    end
  else if str_eqb file_type (py "json") then
    match subprocess_run w [py "jsonlint"; file_path] with
    | Completed => ret true
    | ToolNotFound =>
        logging WARNING (py "jsonlint not found. Skipping JSON validation. Please install jsonlint to enable validation.") ;;
        ret true
    | CalledProcessError stderr =>
        logging ERROR (py "JSON validation failed for " ++ file_path ++ py ":" ++ [LF] ++ stderr) ;;
        ret false
    | RunRaised e =>
        logging ERROR (py "Error during validation for " ++ file_path ++ py ": " ++ e) ;;
        ret false
    end
  else
    logging WARNING (py "No validator available for file type: " ++ file_type ++ py ". Skipping validation.") ;;
    ret true.

(** [read_file], lines 71-105; [None] of the source is [None] here. *)
Definition read_file (file_path file_type : str) : M (option str) :=
  match open_read w file_path with
  | NoSuchFile =>
      logging ERROR (py "File not found: " ++ file_path) ;;
      ret None
  | ReadRaised e =>
      logging ERROR (py "Error reading file " ++ file_path ++ py ": " ++ e) ;;
      ret None
  | Content text =>
      if str_eqb file_type (py "yaml") then
        match yaml_safe_load pk text with
        | Loaded data => ret (Some (yaml_dump pk data 2))
        | Malformed e =>
            logging ERROR (py "Error parsing YAML file " ++ file_path ++ py ": " ++ e) ;;
            ret None
        | LoadRaised e =>
            logging ERROR (py "Error reading file " ++ file_path ++ py ": " ++ e) ;;
            ret None
        end
      else if str_eqb file_type (py "json") then
        match json_load pk text with
        | Loaded data => ret (Some (json_dumps pk data 2))
        | Malformed e =>
            logging ERROR (py "Error parsing JSON file " ++ file_path ++ py ": " ++ e) ;;
            ret None
        | LoadRaised e =>
            logging ERROR (py "Error reading file " ++ file_path ++ py ": " ++ e) ;;
            ret None
        end
      else ret (Some text)
  end.

(** [generate_diff_html], lines 127-146 *)
Definition generate_diff_html (text1 text2 : str) (ignore_ws : bool) : str :=
  let text1 := if ignore_ws then normalize_whitespace text1 else text1 in
  let text2 := if ignore_ws then normalize_whitespace text2 else text2 in
  let diff := diff_main pk text1 text2 in
  let diff := diff_cleanupSemantic pk diff in
  diff_prettyHtml pk diff.

(** [main], lines 148-228, stage by stage as its comments divide it. *)

(** Lines 155-161: both files must exist. *)
Definition ensure_files_exist (args : Args) : M unit :=
  (if negb (path_exists w (file1 args))
   then logging ERROR (py "File not found: " ++ file1 args) ;; sys_exit 1
   else ret tt) ;;
  (if negb (path_exists w (file2 args))
   then logging ERROR (py "File not found: " ++ file2 args) ;; sys_exit 1
   else ret tt).

(** Truth value of [args.type]: [None] and the empty string are false. *)
Definition declared (t : option str) : option str :=
  match t with
  | Some (c :: s) => Some (c :: s)
  | _ => None
  end.

(** The text of the warning of line 169. *)
Definition type_mismatch_warning : str :=
  py "File types of the two files appear to be different. Please specify the file type using the -t option for more accurate comparison.".

(** Lines 164-169: the one [file_type] of the run. *)
Definition determine_file_type (args : Args) : M str :=
  match declared (type_ args) with
  | Some file_type => ret file_type
  | None =>
      let file_type := detect_file_type (lower_nonascii pk) (file1 args) in
      (if negb (str_eqb file_type (detect_file_type (lower_nonascii pk) (file2 args)))
       then logging WARNING type_mismatch_warning
       else ret tt) ;;
      ret file_type
  end.

(** Lines 171-177 *)
Definition validation_step (args : Args) (file_type : str) : M unit :=
  if negb (no_validation args) then
    if existsb (str_eqb file_type) [py "yaml"; py "json"] then
      ok1 <- validate_file (file1 args) file_type ;;
      (if negb ok1 then sys_exit 1 else ret tt) ;;
      ok2 <- validate_file (file2 args) file_type ;;
      (if negb ok2 then sys_exit 1 else ret tt)
    else ret tt
  else ret tt.

(** Lines 179-184: both files are read before either result is looked at. *)
Definition read_files (args : Args) (file_type : str) : M (str * str) :=
  config1 <- read_file (file1 args) file_type ;;
  config2 <- read_file (file2 args) file_type ;;
  match config1, config2 with
  | Some c1, Some c2 => ret (c1, c2)
  | _, _ => sys_exit 1
  end.

(** The call of [generate_diff_html] at line 188 as the [try] of line 187
    sees it: the HTML, or the exception out of the diff engine. *)
Definition try_generate_diff_html (text1 text2 : str) (ignore_ws : bool) : str + str :=
  let text1' := if ignore_ws then normalize_whitespace text1 else text1 in
  let text2' := if ignore_ws then normalize_whitespace text2 else text2 in
  match diff_raises pk text1' text2' with
  | Some e => inr e
  | None => inl (generate_diff_html text1 text2 ignore_ws)
  end.

(** Lines 186-228.  An exception out of the diff engine or out of [print]
    reaches the handler of line 226; one out of [open] or [write] reaches
    the handler of line 208.  What had been shown before the exception
    stays shown. *)
Definition generate_and_output_diff (args : Args) (config1 config2 : str) : M unit :=
  match try_generate_diff_html config1 config2 (ignore_whitespace args) with
  | inr e =>
      logging ERROR (py "Error generating diff: " ++ e) ;;
      sys_exit 1
  | inl diff_html =>
      match output args with
      | Some (c :: s) =>
          let out := c :: s in
          match open_write w out (html_page diff_html) with
          | Written =>
              emit (FileWrite out (html_page diff_html)) ;;
              logging INFO (py "Diff saved to " ++ out)
          | WriteRaised e =>
              logging ERROR (py "Error writing to output file: " ++ e) ;;
              sys_exit 1
          | WriteBroke kept e =>
              emit (FileWrite out kept) ;;
              logging ERROR (py "Error writing to output file: " ++ e) ;;
              sys_exit 1
          end
      | _ =>
          match stdout_write w (html_page diff_html) with
          | Printed => emit (Stdout (html_page diff_html))
          | PrintRaised shown e =>
              match shown with
              | [] => ret tt
              | _ :: _ => emit (Stdout shown)
              end ;;
              logging ERROR (py "Error generating diff: " ++ e) ;;
              sys_exit 1
          end
      end
  end.

(** The run from line 171 on, once [file_type] is fixed. *)
Definition compare_as (args : Args) (file_type : str) : M unit :=
  validation_step args file_type ;;
  configs <- read_files args file_type ;;
  generate_and_output_diff args (fst configs) (snd configs).

(** [main] from line 155 on, for the namespace [args] that
    [parser.parse_args()] of line 153 has returned.  Where [argparse] ends
    the program itself (a usage error, [-h]) these lines are not reached. *)
Definition main (args : Args) : M unit :=
  ensure_files_exist args ;;
  file_type <- determine_file_type args ;;
  compare_as args file_type.

End Program.

(** ** Notions for the properties *)

Definition is_log (e : event) : bool :=
  match e with
  | Log _ _ => true
  | Stdout _ | FileWrite _ _ => false
  end.

(** A run that shows no diff: it prints nothing and writes no file. *)
Definition no_output (t : list event) : Prop :=
  Forall (fun e => is_log e = true) t.

(** A run part that prints and writes nothing and, if it ends the run,
    ends it with status 1. *)
Definition quiet {A : Type} (m : M A) : Prop :=
  no_output (trace m) /\ forall z, outcome m = inr z -> z = 1%Z.

(** The record [read_file] logs for a document that does not parse. *)
Definition parse_error (file_type file_path e : str) : str :=
  if str_eqb file_type (py "yaml")
  then py "Error parsing YAML file " ++ file_path ++ py ": " ++ e
  else py "Error parsing JSON file " ++ file_path ++ py ": " ++ e.

(** The file at [file_path] can be read and its text is rejected by the
    parser of [file_type] with the message [e]. *)
Definition malformed (pk : Packages) (w : World) (file_type file_path e : str) : Prop :=
  exists text,
    open_read w file_path = Content text
    /\ ((file_type = py "yaml" /\ yaml_safe_load pk text = Malformed e)
        \/ (file_type = py "json" /\ json_load pk text = Malformed e)).

(** The command [validate_file] runs for a file type. *)
Definition linter_missing (w : World) (file_type file_path : str) : Prop :=
  (file_type = py "yaml" /\ subprocess_run w [py "yamllint"; file_path] = ToolNotFound)
  \/ (file_type = py "json" /\ subprocess_run w [py "jsonlint"; file_path] = ToolNotFound).

(** ** A host for the examples

    Stand-ins for the packages, enough for the documents of the examples:
    the parsers know the empty mapping [{}] and reject any other text; the
    diff engine answers as [diff_match_patch] does for two texts that are
    equal or have no character in common; the rendering leaves the text as
    it is, which is right for a text without [&], [<], [>] and line
    feeds. *)
Module Demo.

Definition parse_json (text : str) : load_result str :=
  if str_eqb text (py "{}") then Loaded (py "{}")
  else Malformed (py "Expecting property name enclosed in double quotes: line 1 column 2 (char 1)").

Definition parse_yaml (text : str) : load_result str :=
  if str_eqb text (py "{}") then Loaded (py "{}" ++ [LF])
  else Malformed (py "while parsing a flow node").

Definition spans (text1 text2 : str) : list diff :=
  if str_eqb text1 text2 then
    match text1 with [] => [] | _ :: _ => [(DIFF_EQUAL, text1)] end
  else
    match text1, text2 with
    | [], _ => [(DIFF_INSERT, text2)]
    | _, [] => [(DIFF_DELETE, text1)]
    | _, _ => [(DIFF_DELETE, text1); (DIFF_INSERT, text2)]
    end.

Definition pretty (d : diff) : str :=
  match d with
  | (DIFF_INSERT, text) =>
      py "<ins style=" ++ [QUOTE] ++ py "background:#e6ffe6;" ++ [QUOTE] ++ py ">" ++ text ++ py "</ins>"
  | (DIFF_DELETE, text) =>
      py "<del style=" ++ [QUOTE] ++ py "background:#ffe6e6;" ++ [QUOTE] ++ py ">" ++ text ++ py "</del>"
  | (DIFF_EQUAL, text) => py "<span>" ++ text ++ py "</span>"
  end.

Definition packages : Packages := {|
  Y := str;
  J := str;
  yaml_safe_load := parse_yaml;
  yaml_dump := fun data _ => data;
  json_load := parse_json;
  json_dumps := fun data _ => data;
  lower_nonascii := fun _ c _ => [c];
  diff_main := spans;
  diff_cleanupSemantic := fun diffs => diffs;
  diff_prettyHtml := fun diffs => List.concat (List.map pretty diffs);
  diff_raises := fun _ _ => None
|}.

(** A directory with four files and no linter installed. *)
Definition files : list (str * str) :=
  [ (py "a.conf", py "x");
    (py "b.json", py "{a: 1}");
    (py "c.json", py "{}");
    (py "d.yaml", py "a: [") ].

Fixpoint lookup (path : str) (fs : list (str * str)) : option str :=
  match fs with
  | [] => None
  | (p, text) :: fs' => if str_eqb path p then Some text else lookup path fs'
  end.

Definition host : World := {|
  path_exists := fun path => match lookup path files with Some _ => true | None => false end;
  subprocess_run := fun _ => ToolNotFound;
  open_read := fun path => match lookup path files with Some text => Content text | None => NoSuchFile end;
  open_write := fun _ _ => Written;
  stdout_write := fun _ => Printed
|}.

Definition compare (f1 f2 : string) (t : option str) : Args := {|
  file1 := py f1;
  file2 := py f2;
  output := None;
  type_ := t;
  ignore_whitespace := false;
  no_validation := false
|}.

End Demo.

(** ** Notions for further properties *)

(** The linter of [file_type] runs on [file_path] and ends with a status
    other than 0, with [stderr] as its error output. *)
Definition lint_failed (w : World) (file_type file_path stderr : str) : Prop :=
  (file_type = py "yaml"
   /\ subprocess_run w [py "yamllint"; file_path] = CalledProcessError stderr)
  \/ (file_type = py "json"
      /\ subprocess_run w [py "jsonlint"; file_path] = CalledProcessError stderr).

(** The record [validate_file] logs for a file its linter rejects. *)
Definition validation_error (file_type file_path stderr : str) : str :=
  if str_eqb file_type (py "yaml")
  then py "YAML validation failed for " ++ file_path ++ py ":" ++ [LF] ++ stderr
  else py "JSON validation failed for " ++ file_path ++ py ":" ++ [LF] ++ stderr.

(** The host [w] with other answers to the commands it is asked to run. *)
Definition with_subprocess_run (w : World) (run : list str -> run_result) : World := {|
  path_exists := path_exists w;
  subprocess_run := run;
  open_read := open_read w;
  open_write := open_write w;
  stdout_write := stdout_write w
|}.

(** The arguments [args] with another value of [--output]. *)
Definition with_output (args : Args) (out : option str) : Args := {|
  file1 := file1 args;
  file2 := file2 args;
  output := out;
  type_ := type_ args;
  ignore_whitespace := ignore_whitespace args;
  no_validation := no_validation args
|}.


(** The text does not end with a line break. *)
Definition no_break_at_end (s : str) : Prop :=
  forall c, last_char s = Some c -> is_linebreak c = false.

(** Characters and separators of a list of lines, one separator counted
    for every line. *)
Fixpoint weight (ls : list str) : nat :=
  match ls with
  | [] => 0
  | l :: ls' => S (List.length l + weight ls')
  end.


(** ** Python's [json] module

    [read_file] calls [json.load(f)] and [json.dumps(data, indent=2)].
    The module is not part of the program; it is modelled from its
    documentation and its encoder ([json.encoder]).  The decoder turns
    null, true, false, integer and real numbers, strings, arrays and
    objects into [None], [True], [False], [int], [float], [str], [list]
    and [dict].  Its reading of the text is taken as it is: the value it
    finds, with every object as the list of its pairs in the order of the
    text (what the decoder hands to [object_pairs_hook]).  By default the
    pairs of every object then go through [dict()].  What a Python float
    is and how it is printed stay with the interpreter ([F],
    [floatstr]). *)
Module PyJson.

Section Values.

Variable F : Type.

#[warnings="-register-all"]
Inductive value : Type :=
| PyNone
| PyBool (b : bool)
| PyInt (n : Z)
| PyFloat (x : F)
| PyStr (s : str)
| PyList (items : list value)
| PyDict (items : list (str * value)).

(** [d[key] = v] on the items of a dict: a key that is there keeps its
    place and takes the new value, a new key goes to the end. *)
Fixpoint setitem {V : Type} (d : list (str * V)) (key : str) (v : V) : list (str * V) :=
  match d with
  | [] => [(key, v)]
  | (k, v') :: d' =>
      if str_eqb key k then (k, v) :: d' else (k, v') :: setitem d' key v
  end.

(** [dict(pairs)] *)
Definition dict {V : Type} (pairs : list (str * V)) : list (str * V) :=
  fold_left (fun d p => setitem d (fst p) (snd p)) pairs [].

(** What [json.load] returns for the value the decoder has read: every
    object through [dict()], innermost first. *)
Fixpoint loaded (t : value) : value :=
  match t with
  | PyList items => PyList (List.map loaded items)
  | PyDict pairs => PyDict (dict (List.map (fun p => (fst p, loaded (snd p))) pairs))
  | _ => t
  end.

(** No object of the value has two pairs with the same key. *)
Fixpoint distinct (keys : list str) : bool :=
  match keys with
  | [] => true
  | k :: ks => negb (existsb (str_eqb k) ks) && distinct ks
  end.

Fixpoint distinct_keys (t : value) : bool :=
  match t with
  | PyList items => forallb distinct_keys items
  | PyDict pairs =>
      distinct (List.map fst pairs)
      && forallb (fun p => distinct_keys (snd p)) pairs
  | _ => true
  end.

Variable floatstr : F -> str.

(** [int.__repr__]: the decimal digits, after a minus sign if negative *)
Fixpoint uint_digits (d : Decimal.uint) : str :=
  match d with
  | Decimal.Nil => []
  | Decimal.D0 d => 48%N :: uint_digits d
  | Decimal.D1 d => 49%N :: uint_digits d
  | Decimal.D2 d => 50%N :: uint_digits d
  | Decimal.D3 d => 51%N :: uint_digits d
  | Decimal.D4 d => 52%N :: uint_digits d
  | Decimal.D5 d => 53%N :: uint_digits d
  | Decimal.D6 d => 54%N :: uint_digits d
  | Decimal.D7 d => 55%N :: uint_digits d
  | Decimal.D8 d => 56%N :: uint_digits d
  | Decimal.D9 d => 57%N :: uint_digits d
  end.

Definition intstr (n : Z) : str :=
  match Z.to_int n with
  | Decimal.Pos d => uint_digits d
  | Decimal.Neg d => 45%N :: uint_digits d
  end.

(** [encode_basestring_ascii]: the string between double quotes, with a
    backslash before a backslash and before a double quote, the escapes
    b, f, n, r, t for backspace, form feed, line feed, carriage return and
    tab, and a u-escape of four hexadecimal digits for every other
    character outside the range from space to tilde, as a surrogate pair
    from U+10000 on. *)
Definition hex_digit (n : N) : char :=
  if (n <? 10)%N then (48 + n)%N else (87 + n)%N.

Definition u_escape (n : N) : str :=
  [92%N; 117%N;
   hex_digit ((n / 4096) mod 16); hex_digit ((n / 256) mod 16);
   hex_digit ((n / 16) mod 16); hex_digit (n mod 16)].

Definition escape (c : char) : str :=
  if (c =? 92)%N then [92%N; 92%N]
  else if (c =? 34)%N then [92%N; 34%N]
  else if (c =? 8)%N then [92%N; 98%N]
  else if (c =? 12)%N then [92%N; 102%N]
  else if (c =? 10)%N then [92%N; 110%N]
  else if (c =? 13)%N then [92%N; 114%N]
  else if (c =? 9)%N then [92%N; 116%N]
  else if in_range 32%N 126%N c then [c]
  else if (c <? 65536)%N then u_escape c
  else
    let n := (c - 65536)%N in
    u_escape (N.lor 55296 (N.land (N.shiftr n 10) 1023))
    ++ u_escape (N.lor 56320 (N.land n 1023)).

Definition encode_basestring_ascii (s : str) : str :=
  QUOTE :: flat_map escape s ++ [QUOTE].

Definition spaces (n : nat) : str := repeat 32%N n.

(** [_iterencode] of [json.encoder] with [indent] an integer, so with the
    separators [','] and [': '], joined into the text [json.dumps]
    returns.  [level] is [_current_indent_level]. *)
Fixpoint iterencode (indent : nat) (o : value) (level : nat) : str :=
  match o with
  | PyStr s => encode_basestring_ascii s
  | PyNone => py "null"
  | PyBool true => py "true"
  | PyBool false => py "false"
  | PyInt n => intstr n
  | PyFloat x => floatstr x
  | PyList [] => py "[]"
  | PyList lst =>
      let level := S level in
      let newline_indent := LF :: spaces (indent * level) in
      let separator := py "," ++ newline_indent in
      py "[" ++ newline_indent
      ++ (fix items (first : bool) (l : list value) : str :=
            match l with
            | [] => []
            | v :: l' =>
                (if first then [] else separator)
                ++ iterencode indent v level ++ items false l'
            end) true lst
      ++ LF :: spaces (indent * (level - 1)) ++ py "]"
  | PyDict [] => py "{}"
  | PyDict dct =>
      let level := S level in
      let newline_indent := LF :: spaces (indent * level) in
      let item_separator := py "," ++ newline_indent in
      py "{" ++ newline_indent
      ++ (fix items (first : bool) (l : list (str * value)) : str :=
            match l with
            | [] => []
            | (key, v) :: l' =>
                (if first then [] else item_separator)
                ++ encode_basestring_ascii key ++ py ": "
                ++ iterencode indent v level ++ items false l'
            end) true dct
      ++ LF :: spaces (indent * (level - 1)) ++ py "}"
  end.

(** [json.dumps(o, indent=n)] *)
Definition dumps (o : value) (indent : Z) : str :=
  iterencode (Z.to_nat indent) o 0.

(** The canonical text as the specification words it: the value laid out
    with two spaces for every level of nesting, the members of arrays and
    objects in the order given, every scalar as a literal of its own
    kind. *)
Definition new_line (depth : nat) : str := LF :: spaces (2 * depth).

Fixpoint layout (depth : nat) (t : value) : str :=
  match t with
  | PyNone => py "null"
  | PyBool b => if b then py "true" else py "false"
  | PyInt n => intstr n
  | PyFloat x => floatstr x
  | PyStr s => encode_basestring_ascii s
  | PyList items =>
      match items with
      | [] => py "[]"
      | _ :: _ =>
          py "[" ++ new_line (S depth)
          ++ join (py "," ++ new_line (S depth)) (List.map (layout (S depth)) items)
          ++ new_line depth ++ py "]"
      end
  | PyDict pairs =>
      match pairs with
      | [] => py "{}"
      | _ :: _ =>
          py "{" ++ new_line (S depth)
          ++ join (py "," ++ new_line (S depth))
               (List.map (fun p => encode_basestring_ascii (fst p) ++ py ": "
                                   ++ layout (S depth) (snd p)) pairs)
          ++ new_line depth ++ py "}"
      end
  end.

End Values.

Arguments PyNone {F}.
Arguments PyBool {F} b.
Arguments PyInt {F} n.
Arguments PyFloat {F} x.
Arguments PyStr {F} s.
Arguments PyList {F} items.
Arguments PyDict {F} items.
Arguments loaded {F} t.
Arguments distinct_keys {F} t.
Arguments iterencode {F} floatstr indent o level.
Arguments dumps {F} floatstr o indent.
Arguments layout {F} floatstr depth t.

End PyJson.

(** The packages [pk] with the [json] module as modelled: [scan] is the
    decoder's reading of a text. *)
Definition with_json (pk : Packages) (F : Type) (floatstr : F -> str)
    (scan : str -> load_result (PyJson.value F)) : Packages := {|
  Y := Y pk;
  J := PyJson.value F;
  yaml_safe_load := yaml_safe_load pk;
  yaml_dump := yaml_dump pk;
  json_load := fun text =>
    match scan text with
    | Loaded t => Loaded (PyJson.loaded t)
    | Malformed e => Malformed e
    | LoadRaised e => LoadRaised e
    end;
  json_dumps := fun data indent => PyJson.dumps floatstr data indent;
  lower_nonascii := lower_nonascii pk;
  diff_main := diff_main pk;
  diff_cleanupSemantic := diff_cleanupSemantic pk;
  diff_prettyHtml := diff_prettyHtml pk;
  diff_raises := diff_raises pk
|}.

(** Two documents for the examples, as the decoder reads them: an object
    that repeats a key, and one that does not. *)
Module JsonDemo.

Definition q (s : string) : str := QUOTE :: py s ++ [QUOTE].

Definition repeated_text : str :=
  py "{" ++ q "a" ++ py ": 1, " ++ q "b" ++ py ": 2, " ++ q "a" ++ py ": 3}".

Definition repeated_pairs : PyJson.value Empty_set :=
  PyJson.PyDict [(py "a", PyJson.PyInt 1); (py "b", PyJson.PyInt 2); (py "a", PyJson.PyInt 3)].

Definition plain_text : str :=
  py "{" ++ q "b" ++ py ": [1, true, null, " ++ q "1" ++ py "], " ++ q "a" ++ py ": {}}".

Definition plain_pairs : PyJson.value Empty_set :=
  PyJson.PyDict
    [(py "b", PyJson.PyList [PyJson.PyInt 1; PyJson.PyBool true; PyJson.PyNone; PyJson.PyStr (py "1")]);
     (py "a", PyJson.PyDict [])].

Definition scan (text : str) : load_result (PyJson.value Empty_set) :=
  if str_eqb text repeated_text then Loaded repeated_pairs
  else if str_eqb text plain_text then Loaded plain_pairs
  else Malformed (py "Expecting value: line 1 column 1 (char 0)").

Definition floatstr (x : Empty_set) : str := match x with end.

Definition packages : Packages := with_json Demo.packages Empty_set floatstr scan.

Definition host : World := {|
  path_exists := fun _ => true;
  subprocess_run := fun _ => ToolNotFound;
  open_read := fun path =>
    if str_eqb path (py "repeated.json") then Content repeated_text
    else if str_eqb path (py "plain.json") then Content plain_text
    else NoSuchFile;
  open_write := fun _ _ => Written;
  stdout_write := fun _ => Printed
|}.

End JsonDemo.

(** * Properties *)

(** ** Lines and stripping *)

Section LineFacts.

Lemma LF_is_linebreak : is_linebreak LF = true.
Proof. reflexivity. Qed.

Lemma splitlines_loop_line (l rest line : str) :
  no_linebreak l ->
  splitlines_loop line (l ++ rest) = splitlines_loop (line ++ l) rest.
Proof.
  intros Hl. revert line.
  induction Hl as [|c l Hc _ IH]; intros line; simpl.
  - now rewrite app_nil_r.
  - rewrite Hc, IH, <- app_assoc. reflexivity.
Qed.

Lemma splitlines_loop_LF (line rest : str) :
  splitlines_loop line (LF :: rest) = line :: splitlines_loop [] rest.
Proof. destruct rest; reflexivity. Qed.

Lemma splitlines_loop_end (line : str) :
  line <> [] -> splitlines_loop line [] = [line].
Proof. destruct line; [congruence | reflexivity]. Qed.

Lemma join_cons (sep x y : str) (rest : list str) :
  join sep (x :: y :: rest) = x ++ sep ++ join sep (y :: rest).
Proof. reflexivity. Qed.

(** Lines without a line break, the last of them not empty, are found again
    by [splitlines] after [join]. *)
Lemma splitlines_join (l : str) (ls : list str) :
  Forall no_linebreak (l :: ls) ->
  last (l :: ls) [] <> [] ->
  splitlines (join [LF] (l :: ls)) = l :: ls.
Proof.
  unfold splitlines. revert l.
  induction ls as [|y ls IH]; intros l Hall Hlast.
  - simpl join. rewrite <- (app_nil_r l) at 1.
    inversion Hall; subst.
    rewrite splitlines_loop_line by assumption.
    apply splitlines_loop_end. exact Hlast.
  - rewrite join_cons. inversion Hall; subst.
    rewrite splitlines_loop_line by assumption.
    simpl app. rewrite splitlines_loop_LF. f_equal.
    apply IH; assumption.
Qed.

(** Joining one more line puts the separator before it. *)
Lemma join_snoc (sep l : str) (ls : list str) :
  ls <> [] -> join sep (ls ++ [l]) = join sep ls ++ sep ++ l.
Proof.
  induction ls as [|x ls IH]; [congruence|]. intros _.
  destruct ls as [|y ls].
  - reflexivity.
  - change ((x :: y :: ls) ++ [l]) with (x :: y :: (ls ++ [l])).
    rewrite !join_cons.
    change (y :: ls ++ [l]) with ((y :: ls) ++ [l]).
    rewrite IH by discriminate. now rewrite <- !app_assoc.
Qed.

Lemma last_char_app (s : str) (c : char) : last_char (s ++ [c]) = Some c.
Proof. unfold last_char. now rewrite rev_app_distr. Qed.

Lemma last_char_cons (c : char) (s : str) :
  s <> [] -> last_char (c :: s) = last_char s.
Proof.
  intros Hs. destruct (exists_last Hs) as [p [d ->]].
  change (c :: p ++ [d]) with ((c :: p) ++ [d]). now rewrite !last_char_app.
Qed.

Lemma last_char_app_r (a b : str) :
  b <> [] -> last_char (a ++ b) = last_char b.
Proof.
  intros Hb. destruct (exists_last Hb) as [p [d ->]].
  now rewrite app_assoc, !last_char_app.
Qed.

Lemma no_linebreak_last_char (l : str) :
  no_linebreak l -> last_char l <> Some LF.
Proof.
  intros Hl Hend. destruct l as [|c l'] using rev_ind; [discriminate|].
  rewrite last_char_app in Hend. injection Hend as ->.
  apply Forall_app in Hl. destruct Hl as [_ Hd].
  inversion Hd; subst. discriminate.
Qed.

(** The joined text of lines free of line breaks ends with a line feed
    exactly when the last line is empty and is not the only one. *)
Lemma join_last_char (ls : list str) (l : str) :
  no_linebreak l ->
  last_char (join [LF] (ls ++ [l])) = Some LF <-> l = [] /\ ls <> [].
Proof.
  intros Hl. split.
  - intros Hend. destruct ls as [|x ls].
    + simpl in Hend. now apply no_linebreak_last_char in Hend.
    + split; [|discriminate].
      rewrite join_snoc in Hend by discriminate.
      destruct l as [|c l]; [reflexivity|].
      rewrite app_assoc, last_char_app_r in Hend by discriminate.
      now apply no_linebreak_last_char in Hend.
  - intros [-> Hls]. rewrite join_snoc by assumption.
    rewrite app_nil_r. apply last_char_app.
Qed.

End LineFacts.

Section StripFacts.

Lemma splitlines_loop_no_linebreak (s line : str) :
  no_linebreak line -> Forall no_linebreak (splitlines_loop line s).
Proof.
  remember (List.length s) as n eqn:Hn.
  assert (Hle : (List.length s <= n)%nat) by lia. clear Hn.
  revert s line Hle.
  induction n as [|n IH]; intros s line Hle Hline.
  - destruct s; [|simpl in Hle; lia].
    destruct line; simpl; auto.
  - destruct s as [|c s]; [destruct line; simpl; auto|].
    simpl in Hle. simpl.
    destruct (is_linebreak c) eqn:Hc.
    + destruct s as [|d s]; [simpl; auto|].
      simpl in Hle.
      destruct ((c =? CR)%N && (d =? LF)%N).
      * constructor; [assumption|]. apply IH; [lia|constructor].
      * constructor; [assumption|]. apply IH; [simpl; lia|constructor].
    + apply IH; [lia|].
      apply Forall_app. split; [assumption|]. constructor; [assumption|constructor].
Qed.

Lemma splitlines_no_linebreak (s : str) : Forall no_linebreak (splitlines s).
Proof. apply splitlines_loop_no_linebreak. constructor. Qed.

Lemma lstrip_Forall (P : char -> Prop) (s : str) :
  Forall P s -> Forall P (lstrip s).
Proof.
  induction 1 as [|c s Hc Hs IH]; simpl; [constructor|].
  destruct (is_space c); [assumption | now constructor].
Qed.

Lemma rstrip_Forall (P : char -> Prop) (s : str) :
  Forall P s -> Forall P (rstrip s).
Proof.
  intros H. unfold rstrip. apply Forall_rev, lstrip_Forall, Forall_rev, H.
Qed.

Lemma strip_no_linebreak (s : str) : no_linebreak s -> no_linebreak (strip s).
Proof. intros H. apply rstrip_Forall, lstrip_Forall, H. Qed.

Lemma lstrip_starts_black (s : str) : starts_black (lstrip s).
Proof.
  induction s as [|c s IH]; simpl; [exact I|].
  destruct (is_space c) eqn:Hc; [exact IH | exact Hc].
Qed.

Lemma lstrip_fixed (s : str) : starts_black s -> lstrip s = s.
Proof. destruct s as [|c s]; simpl; [reflexivity|]. now intros ->. Qed.

Lemma lstrip_snoc_black (s : str) (c : char) :
  is_space c = false -> lstrip (s ++ [c]) = lstrip s ++ [c].
Proof.
  intros Hc. induction s as [|x s IH]; simpl.
  - now rewrite Hc.
  - destruct (is_space x); [exact IH | reflexivity].
Qed.

Lemma rstrip_starts_black (s : str) : starts_black s -> starts_black (rstrip s).
Proof.
  destruct s as [|c s]; [intros _; exact I|]. simpl. intros Hc.
  unfold rstrip. simpl rev. rewrite lstrip_snoc_black by assumption.
  rewrite rev_app_distr. simpl. exact Hc.
Qed.

Lemma rstrip_rstrip (s : str) : rstrip (rstrip s) = rstrip s.
Proof.
  unfold rstrip. rewrite rev_involutive.
  now rewrite (lstrip_fixed _ (lstrip_starts_black (rev s))).
Qed.

(** [strip] leaves a stripped string as it is. *)
Lemma strip_strip (s : str) : strip (strip s) = strip s.
Proof.
  unfold strip.
  rewrite (lstrip_fixed _ (rstrip_starts_black _ (lstrip_starts_black s))).
  apply rstrip_rstrip.
Qed.

Lemma map_strip_fixed (ls : list str) :
  List.map strip (List.map strip ls) = List.map strip ls.
Proof. rewrite map_map. apply map_ext. intros; apply strip_strip. Qed.

Lemma stripped_lines_no_linebreak (s : str) :
  Forall no_linebreak (List.map strip (splitlines s)).
Proof.
  apply Forall_map. eapply Forall_impl; [|apply splitlines_no_linebreak].
  intros l. apply strip_no_linebreak.
Qed.

Lemma last_snoc (A : Type) (ls : list A) (l d : A) : last (ls ++ [l]) d = l.
Proof. apply last_last. Qed.

(** A second normalisation finds the lines of the first again, unless the
    first ended with an empty line after another line. *)
Lemma normalize_whitespace_fixed (s : str) :
  last_char (normalize_whitespace s) <> Some LF ->
  splitlines (normalize_whitespace s) = List.map strip (splitlines s)
  \/ (normalize_whitespace s = [] /\ List.map strip (splitlines s) = [[]]).
Proof.
  unfold normalize_whitespace.
  pose proof (stripped_lines_no_linebreak s) as Hall.
  destruct (List.map strip (splitlines s)) as [|x ls] eqn:E using rev_ind.
  - intros _. left. reflexivity.
  - intros Hend.
    assert (Hx : no_linebreak x).
    { apply Forall_app in Hall. destruct Hall as [_ Hx]. now inversion Hx. }
    destruct x as [|c x].
    + destruct ls as [|y ls]; [right; split; reflexivity|].
      exfalso. apply Hend. apply join_last_char; [constructor|].
      split; [reflexivity|discriminate].
    + left. destruct ls as [|y ls].
      * apply splitlines_join; [assumption|discriminate].
      * change ((y :: ls) ++ [c :: x]) with (y :: (ls ++ [c :: x])).
        apply splitlines_join; [exact Hall|].
        change (y :: ls ++ [c :: x]) with ((y :: ls) ++ [c :: x]).
        rewrite last_snoc. discriminate.
Qed.

(** Joined lines followed by one more line feed are found again as they
    are, empty lines included. *)
Lemma splitlines_join_LF (ls : list str) :
  ls <> [] -> Forall no_linebreak ls ->
  splitlines (join [LF] ls ++ [LF]) = ls.
Proof.
  unfold splitlines.
  induction ls as [|l ls IH]; [congruence|]. intros _ Hall.
  inversion Hall as [|? ? Hl Hls]; subst.
  destruct ls as [|y ls].
  - simpl join. rewrite splitlines_loop_line by assumption.
    simpl app. now rewrite splitlines_loop_LF.
  - rewrite join_cons, <- app_assoc.
    rewrite splitlines_loop_line by assumption.
    simpl app. rewrite splitlines_loop_LF. f_equal.
    apply IH; [discriminate|assumption].
Qed.

(** X1: where the normalised text ends with a line feed, the second pass
    removes that line feed and nothing else. *)
Lemma normalize_whitespace_second_pass (s : str) :
  last_char (normalize_whitespace s) = Some LF ->
  normalize_whitespace s = normalize_whitespace (normalize_whitespace s) ++ [LF].
Proof.
  unfold normalize_whitespace at 1 2 4.
  pose proof (stripped_lines_no_linebreak s) as Hall.
  pose proof (map_strip_fixed (splitlines s)) as Hfix.
  destruct (List.map strip (splitlines s)) as [|x xs] using rev_ind;
    [discriminate|].
  intros Hend.
  apply Forall_app in Hall. destruct Hall as [Hxs Hx].
  apply join_last_char in Hend; [|now inversion Hx].
  destruct Hend as [-> Hne].
  rewrite map_app in Hfix. apply app_inj_tail in Hfix. destruct Hfix as [Hfix _].
  rewrite join_snoc by assumption. rewrite app_nil_r.
  unfold normalize_whitespace.
  rewrite splitlines_join_LF by assumption.
  now rewrite Hfix.
Qed.

End StripFacts.

(** C5 (as amended): where the normalised text does not end with a line
    feed, normalising it again changes nothing. *)
Theorem normalize_whitespace_idempotent_unless_trailing_lf (s : str) :
  last_char (normalize_whitespace s) <> Some LF ->
  normalize_whitespace (normalize_whitespace s) = normalize_whitespace s.
Proof.
  intros Hend.
  destruct (normalize_whitespace_fixed s Hend) as [Hsame | [Hnil Hone]].
  - unfold normalize_whitespace at 1. rewrite Hsame.
    rewrite map_strip_fixed. reflexivity.
  - rewrite Hnil. reflexivity.
Qed.

Lemma normalize_whitespace_idempotent_witness :
  last_char (normalize_whitespace (py "  key: 1 " ++ [LF] ++ py " b" ++ [LF])) <> Some LF
  /\ normalize_whitespace (normalize_whitespace (py "  key: 1 " ++ [LF] ++ py " b" ++ [LF]))
     = normalize_whitespace (py "  key: 1 " ++ [LF] ++ py " b" ++ [LF]).
Proof.
  assert (H : last_char (normalize_whitespace (py "  key: 1 " ++ [LF] ++ py " b" ++ [LF])) <> Some LF)
    by (vm_compute; discriminate).
  split; [exact H|].
  exact (normalize_whitespace_idempotent_unless_trailing_lf _ H).
Defined.

(** C5 (as stated) fails on a text that ends with an empty line: the first
    pass keeps one line feed at the end, the second removes it. *)
Lemma normalize_whitespace_not_idempotent :
  normalize_whitespace (py "a" ++ [LF; LF]) = py "a" ++ [LF]
  /\ normalize_whitespace (normalize_whitespace (py "a" ++ [LF; LF])) = py "a".
Proof. split; reflexivity. Qed.

Section TrailingLineFeed.

Lemma no_final_break_tail (c : char) (s : str) :
  s <> [] -> no_final_break (c :: s) -> no_final_break s.
Proof.
  intros Hs H d Hd. apply H. now rewrite last_char_cons.
Qed.

(** A line feed after a text that does not end with a line break closes
    the last line and opens no new one. *)
Lemma splitlines_loop_final_LF (s line : str) :
  no_final_break s -> line ++ s <> [] ->
  splitlines_loop line (s ++ [LF]) = splitlines_loop line s.
Proof.
  remember (List.length s) as n eqn:Hn.
  assert (Hle : (List.length s <= n)%nat) by lia. clear Hn.
  revert s line Hle.
  induction n as [|n IH]; intros s line Hle Hs Hne.
  - destruct s; [|simpl in Hle; lia].
    rewrite app_nil_r in Hne. destruct line; [congruence|reflexivity].
  - destruct s as [|c s].
    + rewrite app_nil_r in Hne. destruct line; [congruence|reflexivity].
    + simpl in Hle. simpl app. simpl splitlines_loop.
      destruct (is_linebreak c) eqn:Hc.
      * destruct s as [|d s].
        -- assert (c = CR) as -> by (apply Hs; [reflexivity|assumption]).
           reflexivity.
        -- simpl app. cbv iota. simpl in Hle.
           destruct ((c =? CR)%N && (d =? LF)%N) eqn:Hcrlf.
           ++ f_equal. destruct s as [|e s].
              ** exfalso. apply andb_prop in Hcrlf. destruct Hcrlf as [_ Hd].
                 apply N.eqb_eq in Hd. subst d.
                 specialize (Hs LF eq_refl eq_refl). discriminate.
              ** apply IH; [simpl in Hle |- *; lia| |discriminate].
                 apply no_final_break_tail with d; [discriminate|].
                 apply no_final_break_tail with c; [discriminate|assumption].
           ++ f_equal. apply (IH (d :: s)); [simpl in Hle |- *; lia| |discriminate].
              apply no_final_break_tail with c; [discriminate|assumption].
      * destruct s as [|d s].
        -- simpl. destruct (line ++ [c]) eqn:E; [|reflexivity].
           now destruct line.
        -- apply (IH (d :: s)); [simpl in Hle |- *; lia| |].
           ++ apply no_final_break_tail with c; [discriminate|assumption].
           ++ destruct line; discriminate.
Qed.

Lemma map_eq_snoc (A B : Type) (f : A -> B) (xs : list A) (ys : list B) (y : B) :
  List.map f xs = ys ++ [y] ->
  exists xs' x, xs = xs' ++ [x] /\ List.map f xs' = ys /\ f x = y.
Proof.
  intros H. destruct xs as [|x xs'] using rev_ind.
  - destruct ys; discriminate.
  - rewrite map_app in H. simpl in H.
    apply app_inj_tail in H. destruct H as [H1 H2].
    exists xs', x. auto.
Qed.

End TrailingLineFeed.

(** C9 (as amended): the normalised text ends with a line feed exactly when
    the text has a blank last line after at least one other line; and a
    line feed appended to a text that does not end with a line break
    (a carriage return apart) is not seen in the result. *)
Theorem normalize_whitespace_trailing_lf (s : str) :
  (last_char (normalize_whitespace s) = Some LF <->
   exists ls l, splitlines s = ls ++ [l] /\ ls <> [] /\ strip l = [])
  /\ (no_final_break s ->
      normalize_whitespace (s ++ [LF]) = normalize_whitespace s).
Proof.
  split.
  - unfold normalize_whitespace. split.
    + intros Hend.
      destruct (List.map strip (splitlines s)) as [|x xs] eqn:E using rev_ind;
        [discriminate|].
      assert (Hx : no_linebreak x).
      { pose proof (stripped_lines_no_linebreak s) as Hall. rewrite E in Hall.
        apply Forall_app in Hall. destruct Hall as [_ Hx]. now inversion Hx. }
      apply join_last_char in Hend; [|assumption]. destruct Hend as [-> Hxs].
      apply map_eq_snoc in E. destruct E as (ls & l & Hs & Hls & Hl).
      exists ls, l. repeat split; try assumption.
      intros ->. apply Hxs. now rewrite <- Hls.
    + intros (ls & l & Hs & Hls & Hl).
      rewrite Hs, map_app. simpl. rewrite Hl.
      apply join_last_char; [constructor|]. split; [reflexivity|].
      destruct ls; [congruence|discriminate].
  - intros Hs. destruct s as [|c s]; [reflexivity|].
    unfold normalize_whitespace, splitlines.
    rewrite splitlines_loop_final_LF; [reflexivity|assumption|discriminate].
Qed.

Lemma normalize_whitespace_trailing_lf_witness :
  no_final_break (py " a " ++ [LF] ++ py "b ")
  /\ normalize_whitespace ((py " a " ++ [LF] ++ py "b ") ++ [LF])
     = normalize_whitespace (py " a " ++ [LF] ++ py "b ")
  /\ last_char (normalize_whitespace (py "a" ++ [LF] ++ py "  ")) = Some LF.
Proof.
  assert (H : no_final_break (py " a " ++ [LF] ++ py "b ")).
  { intros c Hc. vm_compute in Hc. injection Hc as <-. discriminate. }
  split; [exact H|]. split.
  - exact (proj2 (normalize_whitespace_trailing_lf _) H).
  - apply (proj1 (normalize_whitespace_trailing_lf _)).
    exists [py "a"], (py "  "). repeat split; discriminate.
Defined.

(** C9 (as stated) fails on a text that ends with an empty line: its
    normalised text ends with a line feed, and differs from that of the
    text without its last line feed. *)
Lemma normalize_whitespace_keeps_lf :
  last_char (normalize_whitespace (py "a" ++ [LF; LF])) = Some LF
  /\ normalize_whitespace (py "a" ++ [LF]) = py "a"
  /\ normalize_whitespace ((py "a" ++ [LF]) ++ [LF]) = py "a" ++ [LF].
Proof. repeat split. Qed.

(** ** The extension of a path *)

Section SplitextFacts.

Local Open Scope Z_scope.

Lemma rfind_from_absent (c : char) (s : str) (i found : Z) :
  ~ In c s -> rfind_from i found c s = found.
Proof.
  revert i found. induction s as [|x s IH]; intros i found Hc; simpl.
  - reflexivity.
  - destruct (N.eqb_spec x c) as [->|Hx].
    + exfalso. apply Hc. now left.
    + apply IH. intros Hin. apply Hc. now right.
Qed.

Lemma rfind_from_last (c : char) (a b : str) (i found : Z) :
  ~ In c b ->
  rfind_from i found c (a ++ c :: b) = i + Z.of_nat (List.length a).
Proof.
  intros Hb. revert i found.
  induction a as [|x a IH]; intros i found.
  - simpl. rewrite N.eqb_refl. rewrite rfind_from_absent by assumption. lia.
  - simpl app. cbn [rfind_from]. rewrite IH. cbn [List.length]. lia.
Qed.

Lemma rfind_absent (c : char) (s : str) : ~ In c s -> rfind s c = -1.
Proof. apply rfind_from_absent. Qed.

Lemma rfind_last (c : char) (a b : str) :
  ~ In c b -> rfind (a ++ c :: b) c = Z.of_nat (List.length a).
Proof. intros Hb. unfold rfind. now rewrite rfind_from_last. Qed.

Lemma slice_to_app (a b : str) : slice_to (a ++ b) (Z.of_nat (List.length a)) = a.
Proof.
  unfold slice_to. rewrite Nat2Z.id.
  rewrite firstn_app, Nat.sub_diag, firstn_all. simpl. apply app_nil_r.
Qed.

Lemma slice_from_app (a b : str) : slice_from (a ++ b) (Z.of_nat (List.length a)) = b.
Proof.
  unfold slice_from. rewrite Nat2Z.id.
  rewrite skipn_app, Nat.sub_diag, skipn_all. reflexivity.
Qed.

Lemma slice_one (a b : str) (c : char) :
  slice (a ++ c :: b) (Z.of_nat (List.length a)) (Z.of_nat (List.length a) + 1) = [c].
Proof.
  unfold slice.
  replace (Z.of_nat (List.length a) + 1) with (Z.of_nat (List.length (a ++ [c])))
    by (rewrite length_app; simpl; lia).
  change (a ++ c :: b) with (a ++ [c] ++ b). rewrite app_assoc.
  rewrite slice_to_app. apply slice_from_app.
Qed.

Lemma skip_leading_dots_found (p pre dots tail : str) (x : char) (todo : nat) (dotIndex : Z) :
  p = pre ++ dots ++ x :: tail ->
  Forall (eq DOT) dots -> x <> DOT ->
  (List.length dots < todo)%nat ->
  Z.of_nat (List.length pre + List.length dots) < dotIndex ->
  skip_leading_dots todo p (Z.of_nat (List.length pre)) dotIndex
  = (slice_to p dotIndex, slice_from p dotIndex).
Proof.
  intros Hp Hdots Hx. revert pre todo Hp.
  induction Hdots as [|d dots Hd _ IH]; intros pre todo Hp Htodo Hdot.
  - destruct todo as [|todo]; [simpl in Htodo; lia|]. simpl in Hp, Hdot.
    cbn [skip_leading_dots].
    replace (Z.of_nat (List.length pre) <? dotIndex) with true
      by (symmetry; apply Z.ltb_lt; lia).
    rewrite Hp at 1. rewrite slice_one.
    unfold str_eqb. destruct (list_eq_dec N.eq_dec [x] [DOT]) as [E|E].
    + congruence.
    + reflexivity.
  - destruct todo as [|todo]; [simpl in Htodo; lia|]. subst d.
    cbn [skip_leading_dots]. cbn [List.length] in Htodo, Hdot.
    replace (Z.of_nat (List.length pre) <? dotIndex) with true
      by (symmetry; apply Z.ltb_lt; lia).
    rewrite Hp at 1. simpl app. rewrite slice_one.
    unfold str_eqb. destruct (list_eq_dec N.eq_dec [DOT] [DOT]) as [_|E]; [|congruence].
    cbn [negb].
    replace (Z.of_nat (List.length pre) + 1) with (Z.of_nat (List.length (pre ++ [DOT])))
      by (rewrite length_app; simpl; lia).
    apply IH.
    + rewrite Hp. simpl. now rewrite <- app_assoc.
    + lia.
    + rewrite length_app. simpl. lia.
Qed.

(** [splitext] cuts a path at a dot that is followed by neither dot nor
    slash, provided the file name has a stem. *)
Lemma splitext_ext (root e0 : str) :
  has_stem root -> ~ In DOT e0 -> ~ In SLASH e0 ->
  splitext (root ++ DOT :: e0) = (root, DOT :: e0).
Proof.
  intros (dir & dots & x & rest & Hroot & Hdir & Hdots & Hx & Hslash) Hdot0 Hsl0.
  unfold splitext.
  rewrite (rfind_last DOT root e0 Hdot0).
  assert (Hnoslash : ~ In SLASH (dots ++ x :: rest ++ DOT :: e0)).
  { intros Hin. apply in_app_or in Hin. destruct Hin as [Hin|Hin].
    - rewrite Forall_forall in Hdots. apply Hdots in Hin. discriminate.
    - change (x :: rest ++ DOT :: e0) with ((x :: rest) ++ DOT :: e0) in Hin.
      apply in_app_or in Hin. destruct Hin as [Hin|[Hin|Hin]]; auto.
      discriminate. }
  assert (Hsep : rfind (root ++ DOT :: e0) SLASH + 1 = Z.of_nat (List.length dir)).
  { rewrite Hroot. destruct Hdir as [->|[d ->]].
    - simpl app at 1. rewrite <- app_assoc. simpl app.
      rewrite rfind_absent; [reflexivity|]. exact Hnoslash.
    - rewrite <- !app_assoc. simpl app.
      rewrite rfind_last by exact Hnoslash.
      rewrite length_app. simpl. lia. }
  assert (Hlen : (List.length root = List.length dir + List.length dots + S (List.length rest))%nat).
  { rewrite Hroot, !length_app. simpl. lia. }
  replace (rfind (root ++ DOT :: e0) SLASH)
    with (Z.of_nat (List.length dir) - 1) by lia.
  replace (Z.of_nat (List.length root) >? Z.of_nat (List.length dir) - 1) with true
    by (symmetry; apply Z.gtb_lt; lia).
  cbv zeta.
  replace (Z.of_nat (List.length dir) - 1 + 1) with (Z.of_nat (List.length dir)) by lia.
  rewrite (skip_leading_dots_found (root ++ DOT :: e0) dir dots (rest ++ DOT :: e0) x).
  - now rewrite slice_to_app, slice_from_app.
  - rewrite Hroot, <- !app_assoc. reflexivity.
  - assumption.
  - assumption.
  - lia.
  - lia.
Qed.

(** The two parts of [splitext] make up the path. *)
Lemma skip_leading_dots_parts (todo : nat) (p : str) (i j : Z) :
  fst (skip_leading_dots todo p i j) ++ snd (skip_leading_dots todo p i j) = p.
Proof.
  revert i. induction todo as [|todo IH]; intros i; simpl.
  - apply app_nil_r.
  - destruct (i <? j); [|simpl; apply app_nil_r].
    destruct (negb _); [|apply IH].
    simpl. apply firstn_skipn.
Qed.

Lemma splitext_parts (p : str) : fst (splitext p) ++ snd (splitext p) = p.
Proof.
  unfold splitext. destruct (_ >? _).
  - apply skip_leading_dots_parts.
  - simpl. apply app_nil_r.
Qed.

End SplitextFacts.

(** ** Type detection *)

Section DetectFacts.

Variable nonascii : str -> char -> str -> str.

Lemma str_eqb_eq (a b : str) : str_eqb a b = true <-> a = b.
Proof.
  unfold str_eqb. destruct (list_eq_dec N.eq_dec a b); split; congruence.
Qed.

Lemma str_eqb_neq (a b : str) : str_eqb a b = false <-> a <> b.
Proof.
  unfold str_eqb. destruct (list_eq_dec N.eq_dec a b); split; congruence.
Qed.

Lemma lower_from_ascii (s before : str) :
  Forall is_ascii s -> lower_from nonascii before s = ascii_fold s.
Proof.
  intros Hs. revert before.
  induction Hs as [|c s Hc _ IH]; intros before; simpl; [reflexivity|].
  apply N.ltb_lt in Hc. rewrite Hc, IH. reflexivity.
Qed.

Lemma ascii_lower_is_ascii (c : char) : is_ascii (ascii_lower c) -> is_ascii c.
Proof.
  unfold ascii_lower, in_range, is_ascii.
  destruct (N.leb_spec 65 c); destruct (N.leb_spec c 90); simpl; lia.
Qed.

Lemma ascii_fold_is_ascii (e : str) : Forall is_ascii (ascii_fold e) -> Forall is_ascii e.
Proof.
  induction e as [|c e IH]; simpl; intros H; [constructor|].
  inversion H; subst. constructor; [now apply ascii_lower_is_ascii | auto].
Qed.

(** Only a capital letter changes under [ascii_lower], and into a small one. *)
Lemma ascii_lower_fixed (c k : char) :
  (k < 97 \/ 122 < k)%N -> ascii_lower c = k -> c = k.
Proof.
  unfold ascii_lower, in_range.
  destruct (N.leb_spec 65 c); destruct (N.leb_spec c 90); simpl; lia.
Qed.

Lemma ascii_fold_absent (k : char) (e : str) :
  (k < 65 \/ 90 < k)%N -> ~ In k (ascii_fold e) -> ~ In k e.
Proof.
  intros Hk Hnot Hin. apply Hnot. unfold ascii_fold.
  replace k with (ascii_lower k) at 1.
  - now apply in_map.
  - unfold ascii_lower, in_range.
    destruct (N.leb_spec 65 k); destruct (N.leb_spec k 90); simpl; lia.
Qed.

(** A path that ends, after a stem, with a dot and further characters
    [t0] in any case has that ending as its extension. *)
Lemma named_extension (root e t0 : str) :
  has_stem root ->
  ascii_fold e = DOT :: t0 ->
  Forall is_ascii t0 -> ~ In DOT t0 -> ~ In SLASH t0 ->
  splitext (root ++ e) = (root, e) /\ lower nonascii e = DOT :: t0.
Proof.
  intros Hroot Hfold Hascii Hdot Hslash.
  assert (He : Forall is_ascii e).
  { apply ascii_fold_is_ascii. rewrite Hfold. constructor; [reflexivity|assumption]. }
  split.
  - destruct e as [|c e0]; [discriminate|].
    change (ascii_fold (c :: e0)) with (ascii_lower c :: ascii_fold e0) in Hfold.
    injection Hfold as Hc He0.
    apply ascii_lower_fixed in Hc; [|left; reflexivity]. subst c.
    apply splitext_ext; [assumption| |].
    + apply ascii_fold_absent; [left; reflexivity|]. now rewrite He0.
    + apply ascii_fold_absent; [left; reflexivity|]. now rewrite He0.
  - unfold lower. rewrite lower_from_ascii by assumption. exact Hfold.
Qed.

Lemma detect_file_type_cases (p : str) :
  let ext := lower nonascii (snd (splitext p)) in
  (ext = py ".yaml" \/ ext = py ".yml" -> detect_file_type nonascii p = py "yaml")
  /\ (ext = py ".json" -> detect_file_type nonascii p = py "json")
  /\ (ext <> py ".yaml" -> ext <> py ".yml" -> ext <> py ".json" ->
      detect_file_type nonascii p = py "text").
Proof.
  unfold detect_file_type. destruct (splitext p) as [root e]. cbn [snd].
  cbv zeta. cbn [existsb]. generalize (lower nonascii e) as ext. intros ext.
  split; [|split].
  - intros [-> | ->]; reflexivity.
  - intros ->. reflexivity.
  - intros H1 H2 H3. apply str_eqb_neq in H1, H2, H3.
    rewrite H1, H2, H3. reflexivity.
Qed.

(** C7: the detected type is a function of the extension that
    [os.path.splitext] cuts off the path, read without regard to case:
    [.yaml] and [.yml] give yaml, [.json] gives json, anything else text.
    Nothing but the path enters. *)
Theorem detect_file_type_by_extension :
  (forall p,
      fst (splitext p) ++ snd (splitext p) = p
      /\ let ext := lower nonascii (snd (splitext p)) in
         (ext = py ".yaml" \/ ext = py ".yml" -> detect_file_type nonascii p = py "yaml")
         /\ (ext = py ".json" -> detect_file_type nonascii p = py "json")
         /\ (ext <> py ".yaml" -> ext <> py ".yml" -> ext <> py ".json" ->
             detect_file_type nonascii p = py "text"))
  /\ (forall p q,
        lower nonascii (snd (splitext p)) = lower nonascii (snd (splitext q)) ->
        detect_file_type nonascii p = detect_file_type nonascii q)
  /\ (forall root e, has_stem root ->
        (ascii_fold e = py ".yaml" \/ ascii_fold e = py ".yml" ->
         detect_file_type nonascii (root ++ e) = py "yaml")
        /\ (ascii_fold e = py ".json" ->
            detect_file_type nonascii (root ++ e) = py "json")).
Proof.
  split; [|split].
  - intros p. split; [apply splitext_parts | apply detect_file_type_cases].
  - intros p q H. unfold detect_file_type.
    destruct (splitext p) as [r1 e1], (splitext q) as [r2 e2].
    cbn [snd] in H. now rewrite H.
  - intros root e Hroot.
    assert (Hext : forall t0, ascii_fold e = DOT :: t0 ->
              Forall is_ascii t0 -> ~ In DOT t0 -> ~ In SLASH t0 ->
              lower nonascii (snd (splitext (root ++ e))) = DOT :: t0).
    { intros t0 H1 H2 H3 H4.
      destruct (named_extension root e t0 Hroot H1 H2 H3 H4) as [Hs Hl].
      now rewrite Hs. }
    assert (Hnot : forall (c : char) t, (forallb (fun x => negb (x =? c)%N) t = true) -> ~ In c t).
    { intros c t Hall Hin. rewrite forallb_forall in Hall.
      apply Hall in Hin. now rewrite N.eqb_refl in Hin. }
    assert (Hasc : forall t, forallb (fun x => x <? 128)%N t = true -> Forall is_ascii t).
    { intros t Hall. rewrite forallb_forall in Hall. apply Forall_forall.
      intros x Hx. apply N.ltb_lt. now apply Hall. }
    split.
    + intros [H|H];
        apply (proj1 (detect_file_type_cases (root ++ e)));
        [left|right]; apply Hext; try exact H;
        solve [apply Hasc; reflexivity | apply Hnot; reflexivity].
    + intros H.
      apply (proj1 (proj2 (detect_file_type_cases (root ++ e)))).
      apply Hext; try exact H;
        solve [apply Hasc; reflexivity | apply Hnot; reflexivity].
Qed.

(** C10: for every path, [detect_file_type] returns one of the three
    strings yaml, json and text. *)
Theorem detect_file_type_total (p : str) :
  detect_file_type nonascii p = py "yaml"
  \/ detect_file_type nonascii p = py "json"
  \/ detect_file_type nonascii p = py "text".
Proof.
  unfold detect_file_type. destruct (splitext p) as [root ext]. cbv zeta.
  destruct (existsb _ _); [now left|].
  destruct (str_eqb _ _); [right; now left | right; now right].
Qed.

(** The paths of the specification's scenario, and some others. *)
Example detect_file_type_examples :
  List.map (fun p => detect_file_type nonascii (py p))
    ["a.yaml"; "a.json"; "a.conf"; "conf.d/App.YML"; "A.JSON"; ".yaml"; "conf.d/.json"; "a.json.bak"; "a.yaml/b"]%string
  = List.map py
    ["yaml"; "json"; "text"; "yaml"; "json"; "text"; "text"; "text"; "text"]%string.
Proof. reflexivity. Qed.

End DetectFacts.

(** ** Runs *)

Section RunFacts.

Lemma bind_inl (A B : Type) (m : M A) (f : A -> M B) (a : A) :
  outcome m = inl a ->
  bind m f = (trace m ++ trace (f a), outcome (f a)).
Proof.
  destruct m as [t [x|z]]; simpl; intros H; [|discriminate].
  injection H as ->. destruct (f a); reflexivity.
Qed.

Lemma bind_inr (A B : Type) (m : M A) (f : A -> M B) (z : Z) :
  outcome m = inr z -> bind m f = (trace m, inr z).
Proof.
  destruct m as [t [x|z']]; simpl; intros H; [discriminate|].
  now injection H as ->.
Qed.

Lemma quiet_ret (A : Type) (a : A) : quiet (ret a).
Proof. split; [constructor|discriminate]. Qed.

Lemma quiet_logging (lv : level) (msg : str) : quiet (logging lv msg).
Proof. split; [repeat constructor|discriminate]. Qed.

Lemma quiet_exit (A : Type) : quiet (@sys_exit A 1).
Proof. split; [constructor|]. intros z H. now injection H. Qed.

Lemma quiet_bind (A B : Type) (m : M A) (f : A -> M B) :
  quiet m -> (forall a, outcome m = inl a -> quiet (f a)) -> quiet (bind m f).
Proof.
  intros [Hm1 Hm2] Hf. destruct (outcome m) as [a|z] eqn:E.
  - rewrite (bind_inl _ _ m f a E). destruct (Hf a eq_refl) as [Hf1 Hf2].
    split; [apply Forall_app; split; assumption | exact Hf2].
  - rewrite (bind_inr _ _ m f z E). split; [exact Hm1|].
    simpl. intros z' H. injection H as <-. now apply Hm2.
Qed.

End RunFacts.

Ltac quiet_step :=
  first [ apply quiet_bind; [|intros ? ?]
        | apply quiet_ret | apply quiet_logging | apply quiet_exit ].

Section ProgramFacts.

Variable pk : Packages.
Variable w : World.

Lemma quiet_ensure_files_exist (args : Args) : quiet (ensure_files_exist w args).
Proof.
  unfold ensure_files_exist.
  destruct (path_exists w (file1 args)), (path_exists w (file2 args));
    cbn [negb]; repeat quiet_step.
Qed.

Lemma quiet_determine_file_type (args : Args) : quiet (determine_file_type pk args).
Proof.
  unfold determine_file_type.
  destruct (declared (type_ args)); [apply quiet_ret|].
  destruct (negb _); repeat quiet_step.
Qed.

Lemma determine_file_type_returns (args : Args) :
  exists ft, outcome (determine_file_type pk args) = inl ft.
Proof.
  unfold determine_file_type.
  destruct (declared (type_ args)); [eexists; reflexivity|].
  destruct (negb _); eexists; reflexivity.
Qed.

Lemma quiet_validate_file (file_path file_type : str) :
  quiet (validate_file w file_path file_type).
Proof.
  unfold validate_file.
  destruct (str_eqb file_type (py "yaml")).
  - destruct (subprocess_run w _); repeat quiet_step.
  - destruct (str_eqb file_type (py "json")).
    + destruct (subprocess_run w _); repeat quiet_step.
    + repeat quiet_step.
Qed.

Lemma quiet_validation_step (args : Args) (file_type : str) :
  quiet (validation_step w args file_type).
Proof.
  unfold validation_step.
  destruct (negb (no_validation args)); [|apply quiet_ret].
  destruct (existsb _ _); [|apply quiet_ret].
  apply quiet_bind; [apply quiet_validate_file|]. intros ok1 _.
  apply quiet_bind; [destruct (negb ok1); repeat quiet_step|]. intros _ _.
  apply quiet_bind; [apply quiet_validate_file|]. intros ok2 _.
  destruct (negb ok2); repeat quiet_step.
Qed.

Lemma quiet_read_file (file_path file_type : str) :
  quiet (read_file pk w file_path file_type).
Proof.
  unfold read_file.
  destruct (open_read w file_path); try solve [repeat quiet_step].
  destruct (str_eqb file_type (py "yaml")).
  - destruct (yaml_safe_load pk text); repeat quiet_step.
  - destruct (str_eqb file_type (py "json")).
    + destruct (json_load pk text); repeat quiet_step.
    + apply quiet_ret.
Qed.

(** [read_file] returns to its caller, with a text or with [None]. *)
Lemma read_file_returns (file_path file_type : str) :
  exists r, outcome (read_file pk w file_path file_type) = inl r.
Proof.
  unfold read_file.
  destruct (open_read w file_path); try (eexists; reflexivity).
  destruct (str_eqb file_type (py "yaml")).
  - destruct (yaml_safe_load pk text); eexists; reflexivity.
  - destruct (str_eqb file_type (py "json")).
    + destruct (json_load pk text); eexists; reflexivity.
    + eexists; reflexivity.
Qed.

Lemma quiet_read_files (args : Args) (file_type : str) :
  quiet (read_files pk w args file_type).
Proof.
  unfold read_files.
  apply quiet_bind; [apply quiet_read_file|]. intros c1 _.
  apply quiet_bind; [apply quiet_read_file|]. intros c2 _.
  destruct c1, c2; repeat quiet_step.
Qed.

(** A document the parser rejects makes [read_file] log the parse error
    and return [None]. *)
Lemma read_file_malformed (file_type file_path e : str) :
  malformed pk w file_type file_path e ->
  read_file pk w file_path file_type
  = ([Log ERROR (parse_error file_type file_path e)], inl None).
Proof.
  intros (text & Hopen & [[-> Hload] | [-> Hload]]);
    unfold read_file, parse_error; rewrite Hopen; cbn [str_eqb];
    change (str_eqb (py "yaml") (py "yaml")) with true;
    change (str_eqb (py "json") (py "yaml")) with false;
    change (str_eqb (py "json") (py "json")) with true;
    cbv iota; rewrite Hload; reflexivity.
Qed.

(** With one of the two documents malformed, [read_files] ends the run. *)
Lemma read_files_malformed (args : Args) (file_type file_path e : str) :
  file_path = file1 args \/ file_path = file2 args ->
  malformed pk w file_type file_path e ->
  outcome (read_files pk w args file_type) = inr 1%Z
  /\ In (Log ERROR (parse_error file_type file_path e))
        (trace (read_files pk w args file_type)).
Proof.
  intros Hpath Hbad. unfold read_files.
  pose proof (read_file_malformed _ _ _ Hbad) as Hread.
  destruct Hpath as [-> | ->].
  - rewrite Hread.
    destruct (read_file_returns (file2 args) file_type) as [r2 H2].
    destruct (read_file pk w (file2 args) file_type) as [t2 o2].
    simpl in H2. subst o2. simpl. split; [reflexivity|now left].
  - destruct (read_file_returns (file1 args) file_type) as [r1 H1].
    destruct (read_file pk w (file1 args) file_type) as [t1 o1].
    simpl in H1. subst o1. rewrite Hread. simpl.
    split; [destruct r1; reflexivity|].
    destruct r1; simpl; apply in_or_app; right; now left.
Qed.

End ProgramFacts.

Section PipelineFacts.

Variable pk : Packages.
Variable w : World.

Lemma compare_as_malformed (args : Args) (ft path e : str) :
  path = file1 args \/ path = file2 args ->
  malformed pk w ft path e ->
  outcome (compare_as pk w args ft) = inr 1%Z
  /\ no_output (trace (compare_as pk w args ft))
  /\ (outcome (validation_step w args ft) = inl tt ->
      In (Log ERROR (parse_error ft path e)) (trace (compare_as pk w args ft))).
Proof.
  intros Hpath Hbad. unfold compare_as.
  destruct (read_files_malformed pk w args ft path e Hpath Hbad) as [Hexit Hlog].
  destruct (quiet_validation_step w args ft) as [Hv1 Hv2].
  destruct (quiet_read_files pk w args ft) as [Hr1 _].
  destruct (outcome (validation_step w args ft)) as [[]|z] eqn:Ev.
  - rewrite (bind_inl _ _ _ _ tt Ev).
    rewrite (bind_inr _ _ _ _ 1%Z Hexit). cbn [trace outcome fst snd].
    split; [reflexivity|]. split.
    + apply Forall_app. split; assumption.
    + intros _. apply in_or_app. now right.
  - rewrite (bind_inr _ _ _ _ z Ev). cbn [trace outcome fst snd].
    rewrite (Hv2 z eq_refl). split; [reflexivity|]. split; [assumption|discriminate].
Qed.

End PipelineFacts.

(** C3 (as amended): if the text of either file is rejected by the parser
    of the file type of the run (the declared type, otherwise the type
    detected for the first file), the run ends with status 1 and neither
    prints nor writes a diff; and unless a missing file or a failed
    validation has ended it before, the parse error is logged. *)
Theorem malformed_input_aborts (pk : Packages) (w : World) (args : Args) (ft path e : str) :
  outcome (determine_file_type pk args) = inl ft ->
  path = file1 args \/ path = file2 args ->
  malformed pk w ft path e ->
  outcome (main pk w args) = inr 1%Z
  /\ no_output (trace (main pk w args))
  /\ (outcome (ensure_files_exist w args) = inl tt ->
      outcome (validation_step w args ft) = inl tt ->
      In (Log ERROR (parse_error ft path e)) (trace (main pk w args))).
Proof.
  intros Hft Hpath Hbad. unfold main.
  destruct (compare_as_malformed pk w args ft path e Hpath Hbad) as (Hc1 & Hc2 & Hc3).
  destruct (quiet_ensure_files_exist w args) as [He1 He2].
  destruct (quiet_determine_file_type pk args) as [Hd1 _].
  destruct (outcome (ensure_files_exist w args)) as [[]|z] eqn:Ee.
  - rewrite (bind_inl _ _ _ _ tt Ee).
    rewrite (bind_inl _ _ _ _ ft Hft). cbn [trace outcome fst snd].
    split; [exact Hc1|]. split.
    + repeat (apply Forall_app; split); assumption.
    + intros _ Hv. apply in_or_app. right. apply in_or_app. right. now apply Hc3.
  - rewrite (bind_inr _ _ _ _ z Ee). cbn [trace outcome fst snd].
    rewrite (He2 z eq_refl). split; [reflexivity|]. split; [assumption|discriminate].
Qed.

Lemma malformed_input_aborts_witness :
  outcome (main Demo.packages Demo.host (Demo.compare "c.json" "b.json" None)) = inr 1%Z
  /\ no_output (trace (main Demo.packages Demo.host (Demo.compare "c.json" "b.json" None)))
  /\ In (Log ERROR (parse_error (py "json") (py "b.json")
           (py "Expecting property name enclosed in double quotes: line 1 column 2 (char 1)")))
        (trace (main Demo.packages Demo.host (Demo.compare "c.json" "b.json" None))).
Proof.
  assert (Hbad : malformed Demo.packages Demo.host (py "json") (py "b.json")
            (py "Expecting property name enclosed in double quotes: line 1 column 2 (char 1)")).
  { exists (py "{a: 1}"). split; [reflexivity|]. right. split; reflexivity. }
  destruct (malformed_input_aborts Demo.packages Demo.host
              (Demo.compare "c.json" "b.json" None) (py "json") (py "b.json") _
              eq_refl (or_intror eq_refl) Hbad) as (H1 & H2 & H3).
  split; [exact H1|]. split; [exact H2|].
  apply H3; reflexivity.
Defined.

(** C3 (as stated) fails for the second file when its type is detected
    and not declared: [d.yaml] is detected as yaml and is no YAML
    document, yet next to [a.conf] the run takes it as text, completes and
    prints a diff. *)
Lemma malformed_second_file_is_diffed :
  declared (type_ (Demo.compare "a.conf" "d.yaml" None)) = None
  /\ detect_file_type (lower_nonascii Demo.packages) (py "d.yaml") = py "yaml"
  /\ malformed Demo.packages Demo.host (py "yaml") (py "d.yaml") (py "while parsing a flow node")
  /\ outcome (main Demo.packages Demo.host (Demo.compare "a.conf" "d.yaml" None)) = inl tt
  /\ exists page,
       In (Stdout page) (trace (main Demo.packages Demo.host (Demo.compare "a.conf" "d.yaml" None))).
Proof.
  split; [reflexivity|]. split; [reflexivity|]. split.
  - exists (py "a: ["). split; [reflexivity|]. left. split; reflexivity.
  - split; [reflexivity|]. eexists. right. left. reflexivity.
Qed.

Section ValidationFacts.

Variable w : World.

Lemma validate_file_linter_missing (file_path file_type : str) :
  linter_missing w file_type file_path ->
  exists msg, validate_file w file_path file_type = ([Log WARNING msg], inl true).
Proof.
  intros [[-> Hrun] | [-> Hrun]]; unfold validate_file.
  - change (str_eqb (py "yaml") (py "yaml")) with true. cbv iota.
    rewrite Hrun. eexists. reflexivity.
  - change (str_eqb (py "json") (py "yaml")) with false.
    change (str_eqb (py "json") (py "json")) with true. cbv iota.
    rewrite Hrun. eexists. reflexivity.
Qed.

End ValidationFacts.

(** C8: with validation on and the linter of the file type not installed,
    [validate_file] logs a warning and returns [True] for either file, the
    validation step lets the run go on, and the run continues with reading
    the files as it does when validation is off. *)
Theorem missing_linter_skips_validation (pk : Packages) (w : World) (args : Args) (ft : str) :
  no_validation args = false ->
  linter_missing w ft (file1 args) ->
  linter_missing w ft (file2 args) ->
  (exists msg, validate_file w (file1 args) ft = ([Log WARNING msg], inl true))
  /\ (exists msg, validate_file w (file2 args) ft = ([Log WARNING msg], inl true))
  /\ (exists msg1 msg2,
        validation_step w args ft = ([Log WARNING msg1; Log WARNING msg2], inl tt))
  /\ outcome (compare_as pk w args ft)
     = outcome (configs <- read_files pk w args ft ;;
                generate_and_output_diff pk w args (fst configs) (snd configs)).
Proof.
  intros Hon H1 H2.
  destruct (validate_file_linter_missing w _ _ H1) as [msg1 Hv1].
  destruct (validate_file_linter_missing w _ _ H2) as [msg2 Hv2].
  assert (Hstep : validation_step w args ft
                  = ([Log WARNING msg1; Log WARNING msg2], inl tt)).
  { unfold validation_step. rewrite Hon. cbn [negb].
    replace (existsb (str_eqb ft) [py "yaml"; py "json"]) with true
      by (destruct H1 as [[-> _] | [-> _]]; reflexivity).
    rewrite Hv1, Hv2. reflexivity. }
  split; [now exists msg1|]. split; [now exists msg2|].
  split; [now exists msg1, msg2|].
  unfold compare_as. rewrite Hstep.
  destruct (configs <- read_files pk w args ft ;;
            generate_and_output_diff pk w args (fst configs) (snd configs)) as [t o].
  reflexivity.
Qed.

Lemma missing_linter_skips_validation_witness :
  validation_step Demo.host (Demo.compare "c.json" "c.json" None) (py "json")
  = ([Log WARNING (py "jsonlint not found. Skipping JSON validation. Please install jsonlint to enable validation.");
      Log WARNING (py "jsonlint not found. Skipping JSON validation. Please install jsonlint to enable validation.")],
     inl tt)
  /\ outcome (compare_as Demo.packages Demo.host (Demo.compare "c.json" "c.json" None) (py "json"))
     = inl tt.
Proof.
  destruct (missing_linter_skips_validation Demo.packages Demo.host
              (Demo.compare "c.json" "c.json" None) (py "json") eq_refl
              (or_intror (conj eq_refl eq_refl)) (or_intror (conj eq_refl eq_refl)))
    as (_ & _ & _ & H).
  split; [reflexivity|]. rewrite H. reflexivity.
Defined.




(** ** More on whitespace normalisation *)

Section NormalizeFacts.

Lemma join_Forall (P : char -> Prop) (sep : str) (ls : list str) :
  Forall P sep -> Forall (Forall P) ls -> Forall P (join sep ls).
Proof.
  intros Hsep Hls. induction Hls as [|l ls Hl Hrest IH]; [constructor|].
  destruct ls as [|y ls]; [exact Hl|].
  rewrite join_cons. repeat (apply Forall_app; split); assumption.
Qed.

(** One step of the scan. *)
Lemma splitlines_loop_break (x d : char) (s line : str) :
  is_linebreak x = true ->
  splitlines_loop line (x :: d :: s)
  = line :: splitlines_loop [] (if (x =? CR)%N && (d =? LF)%N then s else d :: s).
Proof.
  intros Hx. cbn [splitlines_loop]. rewrite Hx.
  destruct ((x =? CR)%N && (d =? LF)%N); reflexivity.
Qed.

Lemma splitlines_loop_char (x : char) (s line : str) :
  is_linebreak x = false ->
  splitlines_loop line (x :: s) = splitlines_loop (line ++ [x]) s.
Proof. intros Hx. cbn [splitlines_loop]. now rewrite Hx. Qed.

(** A text that is not empty has a first line, to which the line read so
    far is joined. *)
Lemma splitlines_loop_head (s : str) :
  s <> [] ->
  exists l rest, forall line, splitlines_loop line s = (line ++ l) :: rest.
Proof.
  induction s as [|x s IH]; [congruence|]. intros _.
  destruct (is_linebreak x) eqn:Hx.
  - destruct s as [|d s].
    + exists [], []. intros line. simpl. rewrite Hx. now rewrite app_nil_r.
    + destruct ((x =? CR)%N && (d =? LF)%N) eqn:Hcrlf.
      * exists [], (splitlines_loop [] s). intros line.
        cbn [splitlines_loop]. rewrite Hx, Hcrlf. now rewrite app_nil_r.
      * exists [], (splitlines_loop [] (d :: s)). intros line.
        cbn [splitlines_loop]. rewrite Hx, Hcrlf. now rewrite app_nil_r.
  - destruct s as [|d s].
    + exists [x], []. intros line. cbn [splitlines_loop]. rewrite Hx.
      destruct (line ++ [x]) eqn:E; [now destruct line | reflexivity].
    + destruct IH as (l & rest & Hl); [discriminate|].
      exists (x :: l), rest. intros line.
      change (splitlines_loop line (x :: d :: s))
        with (if is_linebreak x
              then (if (x =? CR)%N && (d =? LF)%N
                    then line :: splitlines_loop [] s
                    else line :: splitlines_loop [] (d :: s))
              else splitlines_loop (line ++ [x]) (d :: s)).
      rewrite Hx, Hl, <- app_assoc. reflexivity.
Qed.

Lemma strip_leading_space (c : char) (l : str) :
  is_space c = true -> strip (c :: l) = strip l.
Proof. intros Hc. unfold strip. simpl. now rewrite Hc. Qed.

Lemma lstrip_app (l m : str) :
  lstrip (l ++ m) = match lstrip l with [] => lstrip m | _ :: _ => lstrip l ++ m end.
Proof.
  induction l as [|x l IH]; simpl.
  - destruct (lstrip m); reflexivity.
  - destruct (is_space x); [exact IH | reflexivity].
Qed.

Lemma strip_trailing_space (c : char) (l : str) :
  is_space c = true -> strip (l ++ [c]) = strip l.
Proof.
  intros Hc. unfold strip. rewrite lstrip_app.
  destruct (lstrip l) as [|y t] eqn:E.
  - simpl. now rewrite Hc.
  - unfold rstrip. rewrite rev_app_distr. simpl rev at 1. simpl app.
    cbn [lstrip]. now rewrite Hc.
Qed.

Lemma no_break_at_end_tail (c : char) (s : str) :
  s <> [] -> no_break_at_end (c :: s) -> no_break_at_end s.
Proof. intros Hs H d Hd. apply H. now rewrite last_char_cons. Qed.

Lemma splitlines_loop_snoc (c : char) (s line : str) :
  is_linebreak c = false ->
  no_break_at_end s -> line ++ s <> [] ->
  exists ls l,
    splitlines_loop line s = ls ++ [l]
    /\ splitlines_loop line (s ++ [c]) = ls ++ [l ++ [c]].
Proof.
  intros Hc.
  remember (List.length s) as n eqn:Hn.
  assert (Hle : (List.length s <= n)%nat) by lia. clear Hn.
  revert s line Hle.
  assert (Hnil : forall line, line ++ [] <> [] ->
            exists ls l, splitlines_loop line [] = ls ++ [l]
              /\ splitlines_loop line ([] ++ [c]) = ls ++ [l ++ [c]]).
  { intros line Hne. rewrite app_nil_r in Hne. exists [], line.
    simpl app. rewrite splitlines_loop_char by assumption.
    destruct line as [|y line]; [congruence|]. split; reflexivity. }
  induction n as [|n IH]; intros s line Hle Hs Hne.
  - destruct s; [|simpl in Hle; lia]. now apply Hnil.
  - destruct s as [|x s]; [now apply Hnil|].
    simpl in Hle. destruct (is_linebreak x) eqn:Hx.
    + destruct s as [|d s].
      { specialize (Hs x eq_refl). congruence. }
      simpl app. rewrite !splitlines_loop_break by assumption.
      destruct ((x =? CR)%N && (d =? LF)%N) eqn:Hcrlf.
      * destruct s as [|e s].
        { apply andb_prop in Hcrlf. destruct Hcrlf as [_ Hd].
          apply N.eqb_eq in Hd. subst d.
          specialize (Hs LF eq_refl). discriminate. }
        destruct (IH (e :: s) []) as (ls & l & H1 & H2);
          [simpl in Hle |- *; lia| |discriminate|].
        { apply no_break_at_end_tail with d; [discriminate|].
          apply no_break_at_end_tail with x; [discriminate|assumption]. }
        exists (line :: ls), l. rewrite H1, H2. split; reflexivity.
      * destruct (IH (d :: s) []) as (ls & l & H1 & H2);
          [simpl in Hle |- *; lia| |discriminate|].
        { apply no_break_at_end_tail with x; [discriminate|assumption]. }
        exists (line :: ls), l.
        change (d :: s ++ [c]) with ((d :: s) ++ [c]).
        rewrite H1, H2. split; reflexivity.
    + simpl app. rewrite !splitlines_loop_char by assumption.
      destruct (IH s (line ++ [x])) as (ls & l & H1 & H2); [lia| | |].
      * destruct s as [|d s]; [intros d Hd; discriminate|].
        apply no_break_at_end_tail with x; [discriminate|assumption].
      * destruct line; discriminate.
      * exists ls, l. split; assumption.
Qed.

Lemma length_lstrip (s : str) : (List.length (lstrip s) <= List.length s)%nat.
Proof.
  induction s as [|c s IH]; simpl; [lia|].
  destruct (is_space c); simpl; lia.
Qed.

Lemma length_strip (s : str) : (List.length (strip s) <= List.length s)%nat.
Proof.
  unfold strip, rstrip. rewrite length_rev.
  pose proof (length_lstrip (rev (lstrip s))) as H1. rewrite length_rev in H1.
  pose proof (length_lstrip s). lia.
Qed.

Lemma length_join_LF (l : str) (ls : list str) :
  S (List.length (join [LF] (l :: ls))) = weight (l :: ls).
Proof.
  revert l. induction ls as [|y ls IH]; intros l.
  - simpl. lia.
  - rewrite join_cons, !length_app.
    change (weight (l :: y :: ls)) with (S (List.length l + weight (y :: ls))).
    rewrite <- IH. simpl. lia.
Qed.

Lemma weight_map_strip (ls : list str) :
  (weight (List.map strip ls) <= weight ls)%nat.
Proof.
  induction ls as [|l ls IH]; simpl; [lia|].
  pose proof (length_strip l). lia.
Qed.

Lemma weight_splitlines_loop (s line : str) :
  (weight (splitlines_loop line s) <= S (List.length line + List.length s))%nat.
Proof.
  remember (List.length s) as n eqn:Hn.
  assert (Hle : (List.length s <= n)%nat) by lia.
  assert (Hgoal : (weight (splitlines_loop line s) <= S (List.length line + List.length s))%nat);
    [|lia].
  clear Hn. revert s line Hle.
  induction n as [|n IH]; intros s line Hle.
  - destruct s; [|simpl in Hle; lia]. destruct line; simpl; lia.
  - destruct s as [|x s]; [destruct line; simpl; lia|].
    simpl in Hle. cbn [splitlines_loop].
    destruct (is_linebreak x).
    + destruct s as [|d s]; [simpl; lia|].
      simpl in Hle.
      destruct ((x =? CR)%N && (d =? LF)%N); cbn [weight].
      * pose proof (IH s [] ltac:(lia)). simpl in *. lia.
      * pose proof (IH (d :: s) [] ltac:(simpl; lia)). simpl in *. lia.
    + pose proof (IH s (line ++ [x]) ltac:(lia)) as H.
      rewrite length_app in H. simpl in *. lia.
Qed.

End NormalizeFacts.

Lemma normalize_whitespace_second_pass_witness :
  normalize_whitespace (py " a " ++ [LF; CR; LF] ++ py "  ")
  = normalize_whitespace (normalize_whitespace (py " a " ++ [LF; CR; LF] ++ py "  ")) ++ [LF].
Proof.
  exact (normalize_whitespace_second_pass
           (py " a " ++ [LF; CR; LF] ++ py "  ") eq_refl).
Defined.

(** X2: the only line break left in a normalised text is the line feed:
    carriage returns, form feeds and the Unicode separators at which
    [splitlines] breaks do not occur in it. *)
Theorem normalize_whitespace_breaks_are_lf (s : str) :
  Forall (fun c => is_linebreak c = true -> c = LF) (normalize_whitespace s).
Proof.
  unfold normalize_whitespace. apply join_Forall.
  - repeat constructor.
  - eapply Forall_impl; [|apply stripped_lines_no_linebreak].
    intros l Hl. eapply Forall_impl; [|exact Hl].
    intros c Hc Hbreak. congruence.
Qed.

(** X3: a blank before the text (a space, a tab, any white character that
    breaks no line) is not seen in the normalised text. *)
Theorem normalize_whitespace_leading_blank (c : char) (s : str) :
  is_space c = true -> is_linebreak c = false ->
  normalize_whitespace (c :: s) = normalize_whitespace s.
Proof.
  intros Hsp Hbr. unfold normalize_whitespace, splitlines.
  rewrite splitlines_loop_char by assumption. simpl app.
  destruct s as [|x s]; [simpl; unfold strip; simpl; now rewrite Hsp|].
  destruct (splitlines_loop_head (x :: s)) as (l & rest & Hl); [discriminate|].
  rewrite (Hl [c]), (Hl []). simpl.
  now rewrite strip_leading_space.
Qed.

Lemma normalize_whitespace_leading_blank_witness :
  normalize_whitespace (9%N :: py "key: 1" ++ [LF] ++ py "b")
  = normalize_whitespace (py "key: 1" ++ [LF] ++ py "b").
Proof.
  exact (normalize_whitespace_leading_blank 9%N (py "key: 1" ++ [LF] ++ py "b")
           eq_refl eq_refl).
Defined.

(** X4: a blank after a text that does not end with a line break is not
    seen in the normalised text. *)
Theorem normalize_whitespace_trailing_blank (c : char) (s : str) :
  is_space c = true -> is_linebreak c = false ->
  no_break_at_end s ->
  normalize_whitespace (s ++ [c]) = normalize_whitespace s.
Proof.
  intros Hsp Hbr Hs. destruct s as [|x s].
  - simpl. unfold normalize_whitespace, splitlines.
    rewrite splitlines_loop_char by assumption. simpl.
    unfold strip. simpl. now rewrite Hsp.
  - unfold normalize_whitespace, splitlines.
    destruct (splitlines_loop_snoc c (x :: s) [] Hbr Hs) as (ls & l & H1 & H2);
      [discriminate|].
    rewrite H1, H2, !map_app. simpl.
    now rewrite strip_trailing_space.
Qed.

Lemma normalize_whitespace_trailing_blank_witness :
  normalize_whitespace ((py "a" ++ [LF] ++ py "b") ++ [32%N])
  = normalize_whitespace (py "a" ++ [LF] ++ py "b").
Proof.
  refine (normalize_whitespace_trailing_blank 32%N (py "a" ++ [LF] ++ py "b")
            eq_refl eq_refl _).
  intros c Hc. vm_compute in Hc. injection Hc as <-. reflexivity.
Defined.

(** After a line break the blank is a line of its own, and is seen. *)
Example normalize_whitespace_blank_after_break :
  normalize_whitespace (py "a" ++ [LF] ++ py " ") = py "a" ++ [LF]
  /\ normalize_whitespace (py "a" ++ [LF]) = py "a".
Proof. split; reflexivity. Qed.

(** X5: normalisation never makes a text longer. *)
Theorem normalize_whitespace_length (s : str) :
  (List.length (normalize_whitespace s) <= List.length s)%nat.
Proof.
  unfold normalize_whitespace, splitlines.
  pose proof (weight_splitlines_loop s []) as Hw.
  pose proof (weight_map_strip (splitlines_loop [] s)) as Hs.
  destruct (List.map strip (splitlines_loop [] s)) as [|l ls] eqn:E.
  - simpl. lia.
  - pose proof (length_join_LF l ls). simpl in Hw. lia.
Qed.

Lemma normalize_joined_lines (ls : list str) :
  Forall no_linebreak ls -> last ls [] <> [] ->
  normalize_whitespace (join [LF] ls) = join [LF] (List.map strip ls).
Proof.
  intros Hall Hlast. destruct ls as [|l ls]; [reflexivity|].
  unfold normalize_whitespace. now rewrite splitlines_join.
Qed.

(** X6: with [ignore_whitespace], two texts given line by line, whose
    lines are the same up to the white space around them and whose last
    lines are not empty, are rendered as the first text against itself. *)
Theorem ignore_whitespace_line_padding (pk : Packages) (ls1 ls2 : list str) :
  Forall no_linebreak ls1 -> Forall no_linebreak ls2 ->
  last ls1 [] <> [] -> last ls2 [] <> [] ->
  List.map strip ls1 = List.map strip ls2 ->
  normalize_whitespace (join [LF] ls1) = normalize_whitespace (join [LF] ls2)
  /\ generate_diff_html pk (join [LF] ls1) (join [LF] ls2) true
     = generate_diff_html pk (join [LF] ls1) (join [LF] ls1) true.
Proof.
  intros H1 H2 L1 L2 Hsame.
  assert (Hn : normalize_whitespace (join [LF] ls1) = normalize_whitespace (join [LF] ls2)).
  { rewrite !normalize_joined_lines by assumption. now rewrite Hsame. }
  split; [exact Hn|].
  unfold generate_diff_html. now rewrite Hn.
Qed.

Lemma ignore_whitespace_line_padding_witness :
  generate_diff_html Demo.packages
    (join [LF] [py "a: 1"; py "b: 2"]) (join [LF] [py "a: 1  "; py "  b: 2"]) true
  = generate_diff_html Demo.packages
    (join [LF] [py "a: 1"; py "b: 2"]) (join [LF] [py "a: 1"; py "b: 2"]) true.
Proof.
  refine (proj2 (ignore_whitespace_line_padding Demo.packages
            [py "a: 1"; py "b: 2"] [py "a: 1  "; py "  b: 2"] _ _ _ _ eq_refl)).
  - repeat constructor.
  - repeat constructor.
  - discriminate.
  - discriminate.
Defined.

(** ** More on the extension of a path *)

Section ExtensionFacts.

Local Open Scope Z_scope.

Lemma rfind_from_app (c : char) (a b : str) (i found : Z) :
  rfind_from i found c (a ++ b)
  = rfind_from (i + Z.of_nat (List.length a)) (rfind_from i found c a) c b.
Proof.
  revert i found. induction a as [|x a IH]; intros i found.
  - simpl. now rewrite Z.add_0_r.
  - simpl app. cbn [rfind_from List.length]. rewrite IH. f_equal. lia.
Qed.

Lemma rfind_app_absent (c : char) (a b : str) :
  ~ In c b -> rfind (a ++ b) c = rfind a c.
Proof.
  intros Hb. unfold rfind. rewrite rfind_from_app.
  now apply rfind_from_absent.
Qed.

(** The last occurrence of a character that occurs. *)
Lemma last_occurrence (c : char) (s : str) :
  In c s -> exists a b, s = a ++ c :: b /\ ~ In c b.
Proof.
  induction s as [|x s IH]; [intros []|]. intros Hin.
  destruct (in_dec N.eq_dec c s) as [Hs|Hs].
  - destruct (IH Hs) as (a & b & -> & Hb). exists (x :: a), b. split; [reflexivity|assumption].
  - destruct Hin as [->|Hin]; [|contradiction].
    exists [], s. split; [reflexivity|assumption].
Qed.

Lemma rfind_spec (c : char) (s : str) :
  (~ In c s /\ rfind s c = -1)
  \/ (exists a b, s = a ++ c :: b /\ ~ In c b /\ rfind s c = Z.of_nat (List.length a)).
Proof.
  destruct (in_dec N.eq_dec c s) as [Hs|Hs].
  - right. destruct (last_occurrence c s Hs) as (a & b & -> & Hb).
    exists a, b. repeat split; [assumption|]. now apply rfind_last.
  - left. split; [assumption|]. now apply rfind_absent.
Qed.

Lemma rfind_bound (c : char) (s : str) :
  -1 <= rfind s c < Z.of_nat (List.length s).
Proof.
  destruct (rfind_spec c s) as [[_ ->] | (a & b & -> & _ & ->)].
  - lia.
  - rewrite length_app. simpl. lia.
Qed.

Lemma slice_to_shift (pre s : str) (k : Z) :
  0 <= k ->
  slice_to (pre ++ s) (Z.of_nat (List.length pre) + k) = pre ++ slice_to s k.
Proof.
  intros Hk. unfold slice_to.
  replace (Z.to_nat (Z.of_nat (List.length pre) + k))
    with (List.length pre + Z.to_nat k)%nat by lia.
  apply firstn_app_2.
Qed.

Lemma slice_from_shift (pre s : str) (k : Z) :
  0 <= k ->
  slice_from (pre ++ s) (Z.of_nat (List.length pre) + k) = slice_from s k.
Proof.
  intros Hk. unfold slice_from.
  replace (Z.to_nat (Z.of_nat (List.length pre) + k))
    with (List.length pre + Z.to_nat k)%nat by lia.
  rewrite skipn_app.
  replace (List.length pre + Z.to_nat k - List.length pre)%nat with (Z.to_nat k) by lia.
  rewrite skipn_all2 by lia. reflexivity.
Qed.

Lemma slice_shift (pre s : str) (i j : Z) :
  0 <= i -> 0 <= j ->
  slice (pre ++ s) (Z.of_nat (List.length pre) + i) (Z.of_nat (List.length pre) + j)
  = slice s i j.
Proof.
  intros Hi Hj. unfold slice. rewrite slice_to_shift by assumption.
  now apply slice_from_shift.
Qed.

(** The loop of [splitext] sees the file name only. *)
Lemma skip_leading_dots_shift (todo : nat) (pre name : str) (i j : Z) :
  0 <= i -> 0 <= j ->
  skip_leading_dots todo (pre ++ name)
    (Z.of_nat (List.length pre) + i) (Z.of_nat (List.length pre) + j)
  = (pre ++ fst (skip_leading_dots todo name i j),
     snd (skip_leading_dots todo name i j)).
Proof.
  intros Hi Hj. revert i Hi.
  induction todo as [|todo IH]; intros i Hi; cbn [skip_leading_dots].
  - unfold slice_to. reflexivity.
  - replace (Z.of_nat (List.length pre) + i <? Z.of_nat (List.length pre) + j)
      with (i <? j)
      by (destruct (Z.ltb_spec i j);
          destruct (Z.ltb_spec (Z.of_nat (List.length pre) + i) (Z.of_nat (List.length pre) + j));
          try lia; reflexivity).
    destruct (i <? j); [|reflexivity].
    replace (Z.of_nat (List.length pre) + i + 1)
      with (Z.of_nat (List.length pre) + (i + 1)) by lia.
    rewrite slice_shift by lia.
    destruct (negb (str_eqb (slice name i (i + 1)) [DOT])).
    + cbn [fst snd]. now rewrite slice_to_shift, slice_from_shift.
    + apply IH. lia.
Qed.

(** [splitext] works on the last component of the path. *)
Lemma splitext_basename (d name : str) :
  ~ In SLASH name ->
  splitext (d ++ SLASH :: name)
  = ((d ++ [SLASH]) ++ fst (splitext name), snd (splitext name)).
Proof.
  intros Hname. unfold splitext.
  rewrite (rfind_last SLASH d name Hname).
  rewrite (rfind_absent SLASH name Hname).
  destruct (rfind_spec DOT name) as [[Hno Hdot] | (a & b & Hab & Hb & Hdot)].
  - rewrite Hdot.
    change (d ++ SLASH :: name) with (d ++ [SLASH] ++ name).
    rewrite app_assoc, (rfind_app_absent DOT (d ++ [SLASH]) name Hno).
    rewrite (rfind_app_absent DOT d [SLASH]) by (intros [H|[]]; discriminate).
    pose proof (rfind_bound DOT d) as Hbound.
    replace (rfind d DOT >? Z.of_nat (List.length d)) with false
      by (symmetry; rewrite Z.gtb_ltb; apply Z.ltb_ge; lia).
    reflexivity.
  - rewrite Hdot.
    assert (Hw : rfind (d ++ SLASH :: name) DOT
                 = Z.of_nat (List.length (d ++ [SLASH])) + Z.of_nat (List.length a)).
    { rewrite Hab. change (d ++ SLASH :: a ++ DOT :: b) with (d ++ [SLASH] ++ a ++ DOT :: b).
      rewrite !app_assoc. rewrite rfind_last by assumption.
      rewrite !length_app. simpl. lia. }
    rewrite Hw.
    replace (Z.of_nat (List.length (d ++ [SLASH])) + Z.of_nat (List.length a)
             >? Z.of_nat (List.length d)) with true
      by (symmetry; apply Z.gtb_lt; rewrite length_app; simpl; lia).
    replace (Z.of_nat (List.length a) >? -1) with true
      by (symmetry; apply Z.gtb_lt; lia).
    cbv zeta.
    replace (Z.of_nat (List.length d) + 1)
      with (Z.of_nat (List.length (d ++ [SLASH])) + 0)
      by (rewrite length_app; simpl; lia).
    replace (Z.to_nat (Z.of_nat (List.length (d ++ [SLASH])) + Z.of_nat (List.length a)
                       - (Z.of_nat (List.length (d ++ [SLASH])) + 0)))
      with (Z.to_nat (Z.of_nat (List.length a) - (-1 + 1))) by lia.
    change (d ++ SLASH :: name) with (d ++ [SLASH] ++ name). rewrite app_assoc.
    rewrite skip_leading_dots_shift by lia.
    reflexivity.
Qed.

(** Over dots only the loop finds no stem. *)
Lemma skip_leading_dots_all (todo : nat) (pre dots rest : str) :
  Forall (eq DOT) dots ->
  skip_leading_dots todo (pre ++ dots ++ rest)
    (Z.of_nat (List.length pre)) (Z.of_nat (List.length pre + List.length dots))
  = (pre ++ dots ++ rest, []).
Proof.
  intros Hdots. revert todo pre.
  induction Hdots as [|x dots <- _ IH]; intros todo pre.
  - destruct todo; cbn [skip_leading_dots]; [reflexivity|].
    replace (Z.of_nat (List.length pre) <? Z.of_nat (List.length pre + List.length [])) with false
      by (symmetry; apply Z.ltb_ge; simpl; lia).
    reflexivity.
  - destruct todo; cbn [skip_leading_dots]; [reflexivity|].
    replace (Z.of_nat (List.length pre) <? Z.of_nat (List.length pre + List.length (DOT :: dots)))
      with true by (symmetry; apply Z.ltb_lt; simpl; lia).
    simpl app. rewrite slice_one.
    change (str_eqb [DOT] [DOT]) with true. cbn [negb].
    replace (Z.of_nat (List.length pre) + 1) with (Z.of_nat (List.length (pre ++ [DOT])))
      by (rewrite length_app; simpl; lia).
    replace (Z.of_nat (List.length pre + List.length (DOT :: dots)))
      with (Z.of_nat (List.length (pre ++ [DOT]) + List.length dots))
      by (rewrite length_app; simpl; lia).
    specialize (IH todo (pre ++ [DOT])).
    rewrite <- app_assoc in IH. simpl app in IH. exact IH.
Qed.

(** A file name of dots followed by a text without dot has no extension. *)
Lemma splitext_no_stem (dots e0 : str) :
  Forall (eq DOT) dots -> ~ In DOT e0 -> ~ In SLASH e0 ->
  splitext (dots ++ e0) = (dots ++ e0, []).
Proof.
  intros Hdots Hdot Hslash. unfold splitext.
  assert (Hsep : rfind (dots ++ e0) SLASH = -1).
  { apply rfind_absent. intros Hin. apply in_app_or in Hin. destruct Hin as [Hin|Hin]; auto.
    rewrite Forall_forall in Hdots. apply Hdots in Hin. discriminate. }
  rewrite Hsep.
  destruct dots as [|x dots] using rev_ind.
  - simpl app. rewrite (rfind_absent DOT e0 Hdot). reflexivity.
  - apply Forall_app in Hdots. destruct Hdots as [Hdots Hx].
    inversion Hx; subst.
    rewrite <- app_assoc. simpl app.
    rewrite (rfind_last DOT dots e0 Hdot).
    replace (Z.of_nat (List.length dots) >? -1) with true
      by (symmetry; apply Z.gtb_lt; lia).
    cbv zeta. replace (-1 + 1) with (Z.of_nat (List.length (@nil char))) by reflexivity.
    pose proof (skip_leading_dots_all
                  (Z.to_nat (Z.of_nat (List.length dots) - Z.of_nat (List.length (@nil char))))
                  [] dots (DOT :: e0) Hdots) as H.
    simpl app in H. simpl List.length in H at 2 3. exact H.
Qed.

Lemma skip_leading_dots_result (todo : nat) (p : str) (i j : Z) :
  skip_leading_dots todo p i j = (p, [])
  \/ skip_leading_dots todo p i j = (slice_to p j, slice_from p j).
Proof.
  revert i. induction todo as [|todo IH]; intros i; cbn [skip_leading_dots].
  - now left.
  - destruct (i <? j); [|now left].
    destruct (negb _); [now right | apply IH].
Qed.

End ExtensionFacts.

(** X7: the extension [splitext] returns is empty, or it is a dot followed
    by characters none of which is a dot or a slash. *)
Theorem splitext_extension_shape (p : str) :
  snd (splitext p) = []
  \/ exists e0, snd (splitext p) = DOT :: e0 /\ ~ In DOT e0 /\ ~ In SLASH e0.
Proof.
  unfold splitext.
  destruct (rfind p DOT >? rfind p SLASH)%Z eqn:Hgt; [|now left].
  cbv zeta.
  destruct (skip_leading_dots_result
              (Z.to_nat (rfind p DOT - (rfind p SLASH + 1))) p
              (rfind p SLASH + 1) (rfind p DOT)) as [-> | ->]; [now left|].
  right. cbn [snd]. apply Z.gtb_lt in Hgt.
  pose proof (rfind_bound SLASH p) as Hsep.
  destruct (rfind_spec DOT p) as [[_ Hdot] | (a & b & Hp & Hb & Hdot)]; [lia|].
  exists b. rewrite Hdot. split; [|split].
  - rewrite Hp. apply slice_from_app.
  - exact Hb.
  - intros Hin. destruct (last_occurrence SLASH b Hin) as (b1 & b2 & Hb12 & Hb2).
    assert (Hs : rfind p SLASH = Z.of_nat (List.length (a ++ DOT :: b1))).
    { rewrite Hp, Hb12.
      change (a ++ DOT :: b1 ++ SLASH :: b2) with (a ++ (DOT :: b1) ++ SLASH :: b2).
      rewrite app_assoc. now apply rfind_last. }
    rewrite length_app in Hs. simpl in Hs. lia.
Qed.

Section DetectMore.

Variable nonascii : str -> char -> str -> str.

(** X8: the detected type is that of the file name alone; the directories
    before the last slash, and any dot in them, play no part. *)
Theorem detect_file_type_basename (d name : str) :
  ~ In SLASH name ->
  detect_file_type nonascii (d ++ SLASH :: name) = detect_file_type nonascii name.
Proof.
  intros Hname. unfold detect_file_type.
  rewrite (splitext_basename d name Hname).
  destruct (splitext name) as [root ext]. reflexivity.
Qed.

(** X9: a file name without a dot, or with dots at its start only, has no
    extension and is detected as text, whatever follows the dots. *)
Theorem detect_file_type_no_stem (dir dots e0 : str) :
  dir = [] \/ (exists d, dir = d ++ [SLASH]) ->
  Forall (eq DOT) dots -> ~ In DOT e0 -> ~ In SLASH e0 ->
  detect_file_type nonascii (dir ++ dots ++ e0) = py "text".
Proof.
  intros Hdir Hdots Hdot Hslash.
  assert (Hname : detect_file_type nonascii (dots ++ e0) = py "text").
  { unfold detect_file_type. now rewrite splitext_no_stem. }
  destruct Hdir as [-> | [d ->]]; [exact Hname|].
  rewrite <- app_assoc. simpl app.
  unfold detect_file_type. rewrite splitext_basename.
  - now rewrite splitext_no_stem.
  - intros Hin. apply in_app_or in Hin. destruct Hin as [Hin|Hin]; auto.
    rewrite Forall_forall in Hdots. apply Hdots in Hin. discriminate.
Qed.

End DetectMore.

Lemma detect_file_type_basename_witness :
  detect_file_type (lower_nonascii Demo.packages) (py "conf.d/v1.2" ++ SLASH :: py "app.JSON")
  = detect_file_type (lower_nonascii Demo.packages) (py "app.JSON").
Proof.
  refine (detect_file_type_basename (lower_nonascii Demo.packages) (py "conf.d/v1.2") (py "app.JSON") _).
  intros Hin. vm_compute in Hin. intuition discriminate.
Defined.

Lemma detect_file_type_no_stem_witness :
  detect_file_type (lower_nonascii Demo.packages) (py "conf.d/" ++ py "." ++ py "json") = py "text".
Proof.
  refine (detect_file_type_no_stem (lower_nonascii Demo.packages) (py "conf.d/") (py ".") (py "json") _ _ _ _).
  - right. exists (py "conf.d"). reflexivity.
  - repeat constructor.
  - intros Hin. vm_compute in Hin. intuition discriminate.
  - intros Hin. vm_compute in Hin. intuition discriminate.
Defined.


(** ** More on the stages of a run *)

Section StageFacts.

Variable pk : Packages.
Variable w : World.

(** X10: [validate_file] returns to its caller with a verdict, and the
    verdict goes with the log: [True] with nothing or with one warning,
    [False] with exactly one error record. *)
Theorem validate_file_verdict (file_path file_type : str) :
  validate_file w file_path file_type = ([], inl true)
  \/ (exists msg, validate_file w file_path file_type = ([Log WARNING msg], inl true))
  \/ (exists msg, validate_file w file_path file_type = ([Log ERROR msg], inl false)).
Proof.
  unfold validate_file.
  destruct (str_eqb file_type (py "yaml")).
  - destruct (subprocess_run w _).
    + now left.
    + right; left. eexists. reflexivity.
    + right; right. eexists. reflexivity.
    + right; right. eexists. reflexivity.
  - destruct (str_eqb file_type (py "json")).
    + destruct (subprocess_run w _).
      * now left.
      * right; left. eexists. reflexivity.
      * right; right. eexists. reflexivity.
      * right; right. eexists. reflexivity.
    + right; left. eexists. reflexivity.
Qed.

(** X11: [read_file] returns to its caller, either with a text and no log
    record, or with [None] and exactly one error record. *)
Theorem read_file_verdict (file_path file_type : str) :
  (exists text, read_file pk w file_path file_type = ([], inl (Some text)))
  \/ (exists msg, read_file pk w file_path file_type = ([Log ERROR msg], inl None)).
Proof.
  unfold read_file.
  destruct (open_read w file_path) as [text | | e].
  - destruct (str_eqb file_type (py "yaml")).
    + destruct (yaml_safe_load pk text).
      * left. eexists. reflexivity.
      * right. eexists. reflexivity.
      * right. eexists. reflexivity.
    + destruct (str_eqb file_type (py "json")).
      * destruct (json_load pk text).
        -- left. eexists. reflexivity.
        -- right. eexists. reflexivity.
        -- right. eexists. reflexivity.
      * left. eexists. reflexivity.
  - right. eexists. reflexivity.
  - right. eexists. reflexivity.
Qed.

(** X12: when both documents are malformed, both parse errors are logged,
    the first file's first, before the run ends: the second file is read
    although the first has failed. *)
Theorem read_files_both_malformed (args : Args) (file_type e1 e2 : str) :
  malformed pk w file_type (file1 args) e1 ->
  malformed pk w file_type (file2 args) e2 ->
  read_files pk w args file_type
  = ([Log ERROR (parse_error file_type (file1 args) e1);
      Log ERROR (parse_error file_type (file2 args) e2)], inr 1%Z).
Proof.
  intros H1 H2. unfold read_files.
  rewrite (read_file_malformed pk w _ _ _ H1), (read_file_malformed pk w _ _ _ H2).
  reflexivity.
Qed.

(** X13: when the linter rejects the first file, the validation step ends
    the run with status 1 after the one error record: the second file is
    not validated and no file is read. *)
Theorem validation_stops_at_first_failure (args : Args) (file_type stderr : str) :
  no_validation args = false ->
  lint_failed w file_type (file1 args) stderr ->
  validation_step w args file_type
  = ([Log ERROR (validation_error file_type (file1 args) stderr)], inr 1%Z)
  /\ compare_as pk w args file_type
     = ([Log ERROR (validation_error file_type (file1 args) stderr)], inr 1%Z).
Proof.
  intros Hon Hfail.
  assert (Hstep : validation_step w args file_type
                  = ([Log ERROR (validation_error file_type (file1 args) stderr)], inr 1%Z)).
  { unfold validation_step, validate_file, validation_error. rewrite Hon. cbn [negb].
    destruct Hfail as [[-> Hrun] | [-> Hrun]].
    - change (existsb (str_eqb (py "yaml")) [py "yaml"; py "json"]) with true.
      change (str_eqb (py "yaml") (py "yaml")) with true. cbv iota.
      rewrite Hrun. reflexivity.
    - change (existsb (str_eqb (py "json")) [py "yaml"; py "json"]) with true.
      change (str_eqb (py "json") (py "yaml")) with false.
      change (str_eqb (py "json") (py "json")) with true. cbv iota.
      rewrite Hrun. reflexivity. }
  split; [exact Hstep|].
  unfold compare_as. rewrite Hstep. reflexivity.
Qed.

(** X14: a missing input file ends the run at once with status 1 and one
    record, which names the first file if that is missing (be the second
    missing or not), and the second file if only that is missing. *)
Theorem main_missing_file (args : Args) :
  (path_exists w (file1 args) = false ->
   main pk w args = ([Log ERROR (py "File not found: " ++ file1 args)], inr 1%Z))
  /\ (path_exists w (file1 args) = true ->
      path_exists w (file2 args) = false ->
      main pk w args = ([Log ERROR (py "File not found: " ++ file2 args)], inr 1%Z)).
Proof.
  unfold main, ensure_files_exist. split.
  - intros ->. reflexivity.
  - intros -> ->. reflexivity.
Qed.

Lemma generate_and_output_diff_status (args : Args) (c1 c2 : str) (z : Z) :
  outcome (generate_and_output_diff pk w args c1 c2) = inr z -> z = 1%Z.
Proof.
  unfold generate_and_output_diff.
  destruct (try_generate_diff_html pk c1 c2 (ignore_whitespace args)) as [html|e];
    [|cbn; congruence].
  destruct (output args) as [[|c s]|].
  - destruct (stdout_write w (html_page html)) as [|shown e]; [discriminate|].
    destruct shown; cbn; congruence.
  - destruct (open_write w (c :: s) (html_page html)); [discriminate| |]; cbn; congruence.
  - destruct (stdout_write w (html_page html)) as [|shown e]; [discriminate|].
    destruct shown; cbn; congruence.
Qed.


Lemma bind_returns (A B : Type) (m : M A) (f : A -> M B) (b : B) :
  outcome (bind m f) = inl b ->
  exists a, outcome m = inl a /\ outcome (f a) = inl b
            /\ trace (bind m f) = trace m ++ trace (f a).
Proof.
  destruct (outcome m) as [a|z] eqn:E.
  - rewrite (bind_inl _ _ m f a E). cbn [outcome trace fst snd]. intros H.
    exists a. auto.
  - rewrite (bind_inr _ _ m f z E). discriminate.
Qed.

(** What the output stage has done when it returns: the page is in the
    file named by a non-empty [--output], followed by the record that it
    was saved, or else it is on stdout. *)
Lemma generate_and_output_diff_returns (args : Args) (c1 c2 : str) :
  outcome (generate_and_output_diff pk w args c1 c2) = inl tt ->
  let page := html_page (generate_diff_html pk c1 c2 (ignore_whitespace args)) in
  trace (generate_and_output_diff pk w args c1 c2)
  = match output args with
    | Some (c :: s) =>
        [FileWrite (c :: s) page; Log INFO (py "Diff saved to " ++ c :: s)]
    | _ => [Stdout page]
    end.
Proof.
  unfold generate_and_output_diff, try_generate_diff_html.
  destruct (diff_raises pk _ _); [discriminate|].
  destruct (output args) as [[|c s]|].
  - destruct (stdout_write w _) as [|shown e]; [reflexivity|].
    destruct shown; discriminate.
  - destruct (open_write w (c :: s) _); [reflexivity|discriminate|discriminate].
  - destruct (stdout_write w _) as [|shown e]; [reflexivity|].
    destruct shown; discriminate.
Qed.

(** X16: a run that completes has shown exactly one document, as its last
    act but for the record that the file was saved: the page around the
    diff of the two texts [read_file] returned for the file type of the
    run.  With a non-empty [--output] the page is written to that file and
    nothing is printed; otherwise it is printed and no file is written. *)
Theorem main_completes_with_one_document (args : Args) :
  outcome (main pk w args) = inl tt ->
  exists file_type config1 config2 logs,
    outcome (determine_file_type pk args) = inl file_type
    /\ outcome (read_file pk w (file1 args) file_type) = inl (Some config1)
    /\ outcome (read_file pk w (file2 args) file_type) = inl (Some config2)
    /\ no_output logs
    /\ let page := html_page (generate_diff_html pk config1 config2 (ignore_whitespace args)) in
       trace (main pk w args)
       = logs ++ match output args with
                 | Some (c :: s) =>
                     [FileWrite (c :: s) page; Log INFO (py "Diff saved to " ++ c :: s)]
                 | _ => [Stdout page]
                 end.
Proof.
  intros Hdone. unfold main in *.
  apply bind_returns in Hdone. destruct Hdone as ([] & He & Hdone & ->).
  apply bind_returns in Hdone. destruct Hdone as (ft & Hd & Hdone & ->).
  unfold compare_as in *.
  apply bind_returns in Hdone. destruct Hdone as ([] & Hv & Hdone & ->).
  apply bind_returns in Hdone. destruct Hdone as ([c1 c2] & Hr & Hdone & ->).
  cbn [fst snd] in *.
  unfold read_files in Hr.
  apply bind_returns in Hr. destruct Hr as (r1 & Hr1 & Hr & Ht1).
  apply bind_returns in Hr. destruct Hr as (r2 & Hr2 & Hr & Ht2).
  destruct r1 as [x1|], r2 as [x2|]; try discriminate.
  injection Hr as <- <-.
  exists ft, x1, x2.
  exists (trace (ensure_files_exist w args) ++ trace (determine_file_type pk args)
          ++ trace (validation_step w args ft) ++ trace (read_files pk w args ft)).
  split; [exact Hd|]. split; [exact Hr1|]. split; [exact Hr2|]. split.
  - repeat (apply Forall_app; split).
    + apply quiet_ensure_files_exist.
    + apply quiet_determine_file_type.
    + apply quiet_validation_step.
    + apply quiet_read_files.
  - cbv zeta. rewrite (generate_and_output_diff_returns args x1 x2 Hdone).
    now rewrite <- !app_assoc.
Qed.

(** X17: with [--no-validation], or with a file type of the run that is
    neither yaml nor json, no linter is consulted: the run is the same
    whatever the commands of the host would answer. *)
Theorem main_without_linters (args : Args) (file_type : str) (run : list str -> run_result) :
  outcome (determine_file_type pk args) = inl file_type ->
  no_validation args = true
  \/ (file_type <> py "yaml" /\ file_type <> py "json") ->
  main pk (with_subprocess_run w run) args = main pk w args.
Proof.
  intros Hft Hskip.
  assert (Hstep : forall w', validation_step w' args file_type = ret tt).
  { intros w'. unfold validation_step. destruct Hskip as [-> | [Hy Hj]]; [reflexivity|].
    apply str_eqb_neq in Hy, Hj.
    destruct (negb (no_validation args)); [|reflexivity].
    cbn [existsb]. now rewrite Hy, Hj. }
  unfold main.
  change (ensure_files_exist (with_subprocess_run w run) args)
    with (ensure_files_exist w args).
  destruct (ensure_files_exist w args) as [te [[]|z]]; [|reflexivity].
  destruct (determine_file_type pk args) as [td [ft|z]]; [|discriminate].
  cbn [outcome snd] in Hft. injection Hft as ->.
  cbn [bind]. unfold compare_as. rewrite !Hstep. reflexivity.
Qed.

(** X18: an empty [--output] is no output file: the document is printed,
    as it is without the option. *)
Theorem main_empty_output (args : Args) :
  output args = Some [] ->
  main pk w args = main pk w (with_output args None).
Proof.
  intros Hout. unfold main, compare_as, generate_and_output_diff.
  cbn [with_output output ignore_whitespace]. rewrite Hout. reflexivity.
Qed.

End StageFacts.

(** X19: the document determines the diff it was built around: two diffs
    with the same page are the same. *)
Theorem html_page_injective (d1 d2 : str) :
  html_page d1 = html_page d2 -> d1 = d2.
Proof.
  unfold html_page. cbn [join]. intros H.
  repeat match type of H with
         | ?a ++ _ = ?a ++ _ => apply app_inv_head in H
         end.
  repeat rewrite app_assoc in H.
  repeat match type of H with
         | _ ++ ?b = _ ++ ?b => apply app_inv_tail in H
         end.
  exact H.
Qed.

(** ** Instances on the host of the examples *)

Lemma read_files_both_malformed_witness :
  read_files Demo.packages Demo.host (Demo.compare "b.json" "b.json" (Some (py "json"))) (py "json")
  = ([Log ERROR (parse_error (py "json") (py "b.json")
            (py "Expecting property name enclosed in double quotes: line 1 column 2 (char 1)"));
      Log ERROR (parse_error (py "json") (py "b.json")
            (py "Expecting property name enclosed in double quotes: line 1 column 2 (char 1)"))],
     inr 1%Z).
Proof.
  assert (Hbad : malformed Demo.packages Demo.host (py "json") (py "b.json")
            (py "Expecting property name enclosed in double quotes: line 1 column 2 (char 1)")).
  { exists (py "{a: 1}"). split; [reflexivity|]. right. split; reflexivity. }
  exact (read_files_both_malformed Demo.packages Demo.host
           (Demo.compare "b.json" "b.json" (Some (py "json"))) (py "json") _ _ Hbad Hbad).
Defined.

Lemma validation_stops_at_first_failure_witness :
  compare_as Demo.packages
    (with_subprocess_run Demo.host (fun _ => CalledProcessError (py "1:1 error")))
    (Demo.compare "c.json" "b.json" None) (py "json")
  = ([Log ERROR (validation_error (py "json") (py "c.json") (py "1:1 error"))], inr 1%Z).
Proof.
  exact (proj2 (validation_stops_at_first_failure Demo.packages
           (with_subprocess_run Demo.host (fun _ => CalledProcessError (py "1:1 error")))
           (Demo.compare "c.json" "b.json" None) (py "json") (py "1:1 error")
           eq_refl (or_intror (conj eq_refl eq_refl)))).
Defined.

Lemma main_missing_file_witness :
  main Demo.packages Demo.host (Demo.compare "nowhere.conf" "nothere.conf" None)
  = ([Log ERROR (py "File not found: " ++ py "nowhere.conf")], inr 1%Z)
  /\ main Demo.packages Demo.host (Demo.compare "a.conf" "nothere.conf" None)
     = ([Log ERROR (py "File not found: " ++ py "nothere.conf")], inr 1%Z).
Proof.
  split.
  - exact (proj1 (main_missing_file Demo.packages Demo.host
                    (Demo.compare "nowhere.conf" "nothere.conf" None)) eq_refl).
  - exact (proj2 (main_missing_file Demo.packages Demo.host
                    (Demo.compare "a.conf" "nothere.conf" None)) eq_refl eq_refl).
Defined.


Lemma main_completes_with_one_document_witness :
  (exists logs page,
      no_output logs
      /\ trace (main Demo.packages Demo.host (Demo.compare "a.conf" "c.json" None))
         = logs ++ [Stdout page])
  /\ (exists logs page,
        no_output logs
        /\ trace (main Demo.packages Demo.host
                    (with_output (Demo.compare "a.conf" "c.json" None) (Some (py "diff.html"))))
           = logs ++ [FileWrite (py "diff.html") page;
                      Log INFO (py "Diff saved to " ++ py "diff.html")]).
Proof.
  split.
  - destruct (main_completes_with_one_document Demo.packages Demo.host
                (Demo.compare "a.conf" "c.json" None) eq_refl)
      as (ft & c1 & c2 & logs & _ & _ & _ & Hlogs & Hout).
    exists logs. eexists. split; [exact Hlogs | exact Hout].
  - destruct (main_completes_with_one_document Demo.packages Demo.host
                (with_output (Demo.compare "a.conf" "c.json" None) (Some (py "diff.html")))
                eq_refl)
      as (ft & c1 & c2 & logs & _ & _ & _ & Hlogs & Hout).
    exists logs. eexists. split; [exact Hlogs | exact Hout].
Defined.

Lemma main_without_linters_witness :
  main Demo.packages
    (with_subprocess_run Demo.host (fun _ => CalledProcessError (py "1:1 error")))
    (Demo.compare "a.conf" "a.conf" None)
  = main Demo.packages Demo.host (Demo.compare "a.conf" "a.conf" None).
Proof.
  refine (main_without_linters Demo.packages Demo.host
            (Demo.compare "a.conf" "a.conf" None) (py "text")
            (fun _ => CalledProcessError (py "1:1 error")) eq_refl (or_intror _)).
  split; discriminate.
Defined.

Lemma main_empty_output_witness :
  main Demo.packages Demo.host (with_output (Demo.compare "a.conf" "c.json" None) (Some []))
  = main Demo.packages Demo.host
      (with_output (with_output (Demo.compare "a.conf" "c.json" None) (Some [])) None).
Proof.
  exact (main_empty_output Demo.packages Demo.host
           (with_output (Demo.compare "a.conf" "c.json" None) (Some [])) eq_refl).
Defined.

Lemma html_page_injective_witness :
  Demo.pretty (DIFF_EQUAL, py "a") = py "<span>a</span>".
Proof.
  exact (html_page_injective (Demo.pretty (DIFF_EQUAL, py "a")) (py "<span>a</span>") eq_refl).
Defined.

(** ** Paths of ASCII characters *)

Section AsciiPaths.

Variable nonascii : str -> char -> str -> str.

(** X20: for a path of ASCII characters the detected type is decided by
    the extension with its capitals read as small letters, whatever the
    Unicode tables of the interpreter say: it is yaml exactly for [.yaml]
    and [.yml], json exactly for [.json]. *)
Theorem detect_file_type_ascii (p : str) :
  Forall is_ascii p ->
  (detect_file_type nonascii p = py "yaml"
   <-> ascii_fold (snd (splitext p)) = py ".yaml"
       \/ ascii_fold (snd (splitext p)) = py ".yml")
  /\ (detect_file_type nonascii p = py "json"
      <-> ascii_fold (snd (splitext p)) = py ".json").
Proof.
  intros Hp.
  assert (Hext : Forall is_ascii (snd (splitext p))).
  { rewrite <- (splitext_parts p) in Hp. apply Forall_app in Hp. tauto. }
  unfold detect_file_type. destruct (splitext p) as [root ext]. cbn [snd] in *.
  cbv zeta. unfold lower. rewrite (lower_from_ascii nonascii ext [] Hext).
  cbn [existsb].
  destruct (str_eqb (ascii_fold ext) (py ".yaml")) eqn:E1;
    [apply str_eqb_eq in E1 | apply str_eqb_neq in E1];
    (destruct (str_eqb (ascii_fold ext) (py ".yml")) eqn:E2;
      [apply str_eqb_eq in E2 | apply str_eqb_neq in E2]);
    (destruct (str_eqb (ascii_fold ext) (py ".json")) eqn:E3;
      [apply str_eqb_eq in E3 | apply str_eqb_neq in E3]);
    cbn [orb]; repeat split; intros H;
    try reflexivity; try discriminate H; try tauto;
    try (rewrite E1 in *; discriminate); try (rewrite E2 in *; discriminate);
    try (destruct H as [H|H]; congruence).
Qed.

End AsciiPaths.

Lemma detect_file_type_ascii_witness :
  detect_file_type (fun _ _ _ => []) (py "conf.d/App.YML") = py "yaml".
Proof.
  refine (proj2 (proj1 (detect_file_type_ascii (fun _ _ _ => []) (py "conf.d/App.YML") _))
            (or_intror eq_refl)).
  repeat constructor.
Defined.

(** ** JSON documents *)

Section JsonFacts.

Variable F : Type.
Variable floatstr : F -> str.

(** Induction over a value and the values inside it. *)
Section Induction.

Variable P : PyJson.value F -> Prop.
Hypothesis HNone : P PyJson.PyNone.
Hypothesis HBool : forall b, P (PyJson.PyBool b).
Hypothesis HInt : forall n, P (PyJson.PyInt n).
Hypothesis HFloat : forall x, P (PyJson.PyFloat x).
Hypothesis HStr : forall s, P (PyJson.PyStr s).
Hypothesis HList : forall items, Forall P items -> P (PyJson.PyList items).
Hypothesis HDict :
  forall pairs, Forall (fun p => P (snd p)) pairs -> P (PyJson.PyDict pairs).

Fixpoint value_induction (t : PyJson.value F) : P t :=
  match t with
  | PyJson.PyNone => HNone
  | PyJson.PyBool b => HBool b
  | PyJson.PyInt n => HInt n
  | PyJson.PyFloat x => HFloat x
  | PyJson.PyStr s => HStr s
  | PyJson.PyList items =>
      HList items
        ((fix all (l : list (PyJson.value F)) : Forall P l :=
            match l with
            | [] => Forall_nil P
            | x :: l' => Forall_cons x (value_induction x) (all l')
            end) items)
  | PyJson.PyDict pairs =>
      HDict pairs
        ((fix all (l : list (str * PyJson.value F)) : Forall (fun p => P (snd p)) l :=
            match l with
            | [] => Forall_nil _
            | p :: l' => Forall_cons p (value_induction (snd p)) (all l')
            end) pairs)
  end.

End Induction.

Lemma setitem_new (V : Type) (d : list (str * V)) (key : str) (v : V) :
  existsb (str_eqb key) (List.map fst d) = false ->
  PyJson.setitem d key v = d ++ [(key, v)].
Proof.
  induction d as [|[k v'] d IH]; simpl; [reflexivity|].
  intros H. apply orb_false_elim in H. destruct H as [Hk Hd].
  rewrite Hk, IH by assumption. reflexivity.
Qed.

Lemma existsb_app_false (A : Type) (f : A -> bool) (l1 l2 : list A) :
  existsb f l1 = false -> existsb f l2 = false -> existsb f (l1 ++ l2) = false.
Proof. intros H1 H2. rewrite existsb_app, H1, H2. reflexivity. Qed.

Lemma str_eqb_sym (a b : str) : str_eqb a b = str_eqb b a.
Proof.
  unfold str_eqb.
  destruct (list_eq_dec N.eq_dec a b), (list_eq_dec N.eq_dec b a); congruence.
Qed.

(** [dict()] of pairs with distinct keys keeps them all, in their order. *)
Lemma dict_from_distinct (V : Type) (pairs acc : list (str * V)) :
  PyJson.distinct (List.map fst pairs) = true ->
  (forall k, In k (List.map fst pairs) ->
             existsb (str_eqb k) (List.map fst acc) = false) ->
  fold_left (fun d p => PyJson.setitem d (fst p) (snd p)) pairs acc = acc ++ pairs.
Proof.
  revert acc. induction pairs as [|[k v] pairs IH]; intros acc Hd Hacc.
  - simpl. now rewrite app_nil_r.
  - simpl in Hd. apply andb_prop in Hd. destruct Hd as [Hk Hd].
    apply negb_true_iff in Hk.
    cbn [fold_left fst snd].
    rewrite setitem_new by (apply Hacc; now left).
    rewrite IH; [now rewrite <- app_assoc | assumption |].
    intros k' Hk'. rewrite map_app. apply existsb_app_false.
    + apply Hacc. now right.
    + simpl. rewrite orb_false_r.
      destruct (str_eqb k' k) eqn:E; [|reflexivity].
      apply str_eqb_eq in E. subst k'.
      rewrite <- Hk. symmetry. clear -Hk'.
      induction (List.map fst pairs) as [|x l IHl]; [destruct Hk'|].
      simpl. destruct Hk' as [->|Hin].
      * replace (str_eqb k k) with true by (symmetry; now apply str_eqb_eq).
        reflexivity.
      * rewrite (IHl Hin). apply orb_true_r.
Qed.

Lemma dict_distinct (V : Type) (pairs : list (str * V)) :
  PyJson.distinct (List.map fst pairs) = true -> PyJson.dict pairs = pairs.
Proof.
  intros Hd. unfold PyJson.dict.
  now rewrite dict_from_distinct.
Qed.

(** A value without repeated keys is loaded as it was read. *)
Lemma loaded_distinct (t : PyJson.value F) :
  PyJson.distinct_keys t = true -> PyJson.loaded t = t.
Proof.
  pattern t. apply value_induction; clear t;
    [reflexivity | reflexivity | reflexivity | reflexivity | reflexivity
    | intros items IH Hd | intros pairs IH Hd].
  - cbn [PyJson.loaded PyJson.distinct_keys] in *. f_equal.
    induction IH as [|x l Hx _ IHl]; [reflexivity|].
    simpl in Hd. apply andb_prop in Hd. destruct Hd as [H1 H2].
    simpl. now rewrite Hx, IHl.
  - cbn [PyJson.loaded PyJson.distinct_keys] in *.
    apply andb_prop in Hd. destruct Hd as [Hkeys Hall].
    assert (Hmap : List.map (fun p => (fst p, PyJson.loaded (snd p))) pairs = pairs).
    { clear Hkeys. induction IH as [|[k v] l Hx _ IHl]; [reflexivity|].
      simpl in Hall. apply andb_prop in Hall. destruct Hall as [H1 H2].
      simpl in *. now rewrite Hx, IHl. }
    rewrite Hmap. f_equal. now apply dict_distinct.
Qed.

Lemma join_cons_any (sep x : str) (rest : list str) :
  join sep (x :: rest)
  = x ++ match rest with [] => [] | _ :: _ => sep ++ join sep rest end.
Proof. destruct rest; [simpl; now rewrite app_nil_r | reflexivity]. Qed.

(** With [indent=2] the encoder writes the layout. *)
Lemma iterencode_layout (t : PyJson.value F) (level : nat) :
  PyJson.iterencode floatstr 2 t level = PyJson.layout floatstr level t.
Proof.
  revert level. pattern t. apply value_induction; clear t;
    [reflexivity | intros [|]; reflexivity | reflexivity | reflexivity | reflexivity
    | intros items IH level | intros pairs IH level].
  - destruct items as [|x items]; [reflexivity|].
    inversion IH as [|? ? Hx Hitems]; subst.
    cbn [PyJson.iterencode PyJson.layout List.map].
    replace (S level - 1)%nat with level by lia.
    rewrite join_cons_any, Hx. unfold PyJson.new_line.
    f_equal. f_equal. cbn [app]. rewrite <- !app_assoc. f_equal.
    match goal with
    | |- ?loop false items ++ _ = _ =>
        assert (Hloop : forall l first,
                  Forall (fun v => forall lv,
                            PyJson.iterencode floatstr 2 v lv
                            = PyJson.layout floatstr lv v) l ->
                  loop first l
                  = match l with
                    | [] => []
                    | _ :: _ =>
                        (if first then [] else py "," ++ LF :: PyJson.spaces (2 * S level))
                        ++ join (py "," ++ LF :: PyJson.spaces (2 * S level))
                             (List.map (PyJson.layout floatstr (S level)) l)
                    end)
    end.
    { intros l first Hl. revert first.
      induction Hl as [|v l Hv Hl IHl]; intros first; [reflexivity|].
      rewrite Hv, IHl. cbn [List.map]. rewrite join_cons_any.
      destruct l; cbn [List.map]; now rewrite <- ?app_assoc, ?app_nil_r. }
    rewrite (Hloop items false Hitems).
    destruct items; reflexivity.
  - destruct pairs as [|[k x] pairs]; [reflexivity|].
    inversion IH as [|? ? Hx Hpairs]; subst. cbn [fst snd] in Hx.
    cbn [PyJson.iterencode PyJson.layout List.map fst snd].
    replace (S level - 1)%nat with level by lia.
    rewrite join_cons_any, Hx. unfold PyJson.new_line.
    f_equal. f_equal. cbn [app]. rewrite <- !app_assoc. do 3 f_equal.
    match goal with
    | |- ?loop false pairs ++ _ = _ =>
        assert (Hloop : forall l first,
                  Forall (fun q => forall lv,
                            PyJson.iterencode floatstr 2 (snd q) lv
                            = PyJson.layout floatstr lv (snd q)) l ->
                  loop first l
                  = match l with
                    | [] => []
                    | _ :: _ =>
                        (if first then [] else py "," ++ LF :: PyJson.spaces (2 * S level))
                        ++ join (py "," ++ LF :: PyJson.spaces (2 * S level))
                             (List.map (fun q => PyJson.encode_basestring_ascii (fst q)
                                                 ++ py ": "
                                                 ++ PyJson.layout floatstr (S level) (snd q)) l)
                    end)
    end.
    { intros l first Hl. revert first.
      induction Hl as [|[k' v] l Hv Hl IHl]; intros first; [reflexivity|].
      cbn [fst snd] in Hv.
      rewrite Hv, IHl. cbn [List.map fst snd]. rewrite join_cons_any.
      destruct l; cbn [List.map]; now rewrite <- ?app_assoc, ?app_nil_r. }
    rewrite (Hloop pairs false Hpairs).
    destruct pairs; reflexivity.
Qed.

End JsonFacts.



